(** * The multi-GPU Estimator notebook: data preparation, input functions,
      timing hook and layer freezing

    A shallow embedding of the code cells of
    [7-estimators-multi-gpus.ipynb] and the properties its description
    states about them.  Library objects the notebook only passes around
    (datasets, lookup tables, images) are kept symbolic; the few library
    functions whose results the properties depend on ([reshape],
    [to_categorical], [string_split], [one_hot], a table lookup) are modelled
    after their documented behaviour. *)

From Stdlib Require Import ZArith QArith Lia Ascii Floats.SpecFloat.
From stdpp Require Import base option list strings gmap.

Local Open Scope Z_scope.

(** ** IEEE binary32 numbers ([np.float32])

    [prec = 24] bits of mantissa, infinities at exponent [emax = 128];
    operations round to nearest, ties to even. *)
Module F32.

Definition t : Type := spec_float.

Definition prec : Z := 24.
Definition emax : Z := 128.

Definition zero : t := S754_zero false.
Definition one : t := SFone prec emax.

(** Conversion of an integer, as [np.asarray(..., dtype=np.float32)] does
    for each element and as NumPy does for the Python scalar [255]. *)
Definition of_Z (n : Z) : t := binary_normalize prec emax n 0 false.

Definition add (x y : t) : t := SFadd prec emax x y.
Definition div (x y : t) : t := SFdiv prec emax x y.

(** The rational a finite float stands for. *)
Definition to_Q (x : t) : option Q :=
  match x with
  | S754_zero _ => Some 0%Q
  | S754_finite s m e =>
      let v := (inject_Z (Z.pos m) * Qpower 2 e)%Q in
      Some (if s then Qopp v else v)
  | S754_infinity _ | S754_nan => None
  end.

(** [x] is a finite number of the closed interval [[0, 1]]. *)
Definition in_unit_interval (x : t) : Prop :=
  exists q : Q, to_Q x = Some q /\ (0 <= q)%Q /\ (q <= 1)%Q.

Definition in_unit_intervalb (x : t) : bool :=
  match to_Q x with
  | Some q => Qle_bool 0 q && Qle_bool q 1
  | None => false
  end.

End F32.

(** ** N-dimensional arrays ([np.ndarray])

    A shape and the flat buffer of elements in row-major (C) order. *)
Module Ndarray.

Record t (A : Type) : Type := mk { shape : list nat; data : list A }.
Arguments mk {A} _ _.
Arguments shape {A} _.
Arguments data {A} _.

(** Number of elements a shape holds. *)
Definition size (shape : list nat) : nat := foldr Nat.mul 1%nat shape.

(** The buffer holds as many elements as the shape says. *)
Definition wf {A} (a : t A) : Prop := length (data a) = size (shape a).

(** [len(a)]: the first dimension; [TypeError] for a 0-d array. *)
Definition len {A} (a : t A) : option nat := head (shape a).

(** Element-wise operation ([a / 255], [np.asarray(a, dtype=...)]). *)
Definition map {A B} (f : A -> B) (a : t A) : t B := mk (shape a) (f <$> data a).

(** [a.reshape(newshape)] for a shape of non-negative dimensions: the same
    buffer under the new shape, [ValueError] when the sizes differ. *)
Definition reshape {A} (newshape : list nat) (a : t A) : option (t A) :=
  if decide (size newshape = length (data a)) then Some (mk newshape (data a))
  else None.

(** Position in the buffer of the element at a multi-index. *)
Fixpoint offset (shape idx : list nat) : option nat :=
  match shape, idx with
  | [], [] => Some 0%nat
  | n :: shape', i :: idx' =>
      if decide (i < n)%nat
      then (fun o => i * size shape' + o)%nat <$> offset shape' idx'
      else None
  | _, _ => None
  end.

(** [a[i, j, ...]] with non-negative indices. *)
Definition get {A} (a : t A) (idx : list nat) : option A :=
  o ← offset (shape a) idx; data a !! o.

End Ndarray.

(** ** Cell 5: normalising and reshaping the images *)

(** One element of [np.asarray(images, dtype=np.float32) / 255]. *)
Definition normalize (pixel : Z) : F32.t := F32.div (F32.of_Z pixel) (F32.of_Z 255).

(** The cell, for either of [train_images] and [test_images]:
    [SIZE = len(images)], then the division, then the reshape. *)
Definition prepare_images (images : Ndarray.t Z) : option (Ndarray.t F32.t) :=
  SIZE ← Ndarray.len images;
  let images := Ndarray.map normalize images in
  Ndarray.reshape [SIZE; 28; 28; 1]%nat images.

(** ** Cell 7: one-hot encoding of the labels *)

Definition LABEL_DIMENSIONS : Z := 10.

(** Index normalisation of NumPy: [-n <= i < n], negative indices count from
    the end, anything else is an [IndexError]. *)
Definition np_index (n : nat) (i : Z) : option nat :=
  if decide (0 <= i < Z.of_nat n) then Some (Z.to_nat i)
  else if decide (- Z.of_nat n <= i < 0) then Some (Z.to_nat (Z.of_nat n + i))
  else None.

(** [np.max(y)]; [ValueError] on an empty array. *)
Definition np_max (y : list Z) : option Z :=
  match y with
  | [] => None
  | y0 :: y' => Some (foldl Z.max y0 y')
  end.

(** [tf.keras.utils.to_categorical(y, num_classes)] on a vector of integer
    labels: a matrix of zeros with [categorical[i, y[i]] = 1], given as the
    list of its rows.  A falsy [num_classes] is replaced by [max(y) + 1]. *)
Definition to_categorical (y : list Z) (num_classes : Z) : option (list (list F32.t)) :=
  num_classes ← (if decide (num_classes = 0) then Z.succ <$> np_max y
                 else Some num_classes);
  guard (0 <= num_classes);;
  let n := Z.to_nat num_classes in
  mapM (fun l => k ← np_index n l; Some (<[k := F32.one]> (replicate n F32.zero))) y.

(** [row.sum()] in binary32. *)
Definition f32_sum (row : list F32.t) : F32.t := foldl F32.add F32.zero row.

(** ** Exceptions and results *)

(** [AttributeError] is raised by the interpreter on reading an attribute an
    object does not have; [Exception] stands for anything a library call
    raises, by the name of its class. *)
Inductive exn : Type :=
| AttributeError (attribute : string)
| Exception (class : string).

Inductive result (A : Type) : Type :=
| Ok (a : A)
| Raise (e : exn).
Arguments Ok {A} a.
Arguments Raise {A} e.

#[export] Instance result_ret : MRet result := fun A a => Ok a.
#[export] Instance result_bind : MBind result := fun A B f r =>
  match r with
  | Ok a => f a
  | Raise e => Raise e
  end.
#[export] Instance result_fmap : FMap result := fun A B f r =>
  match r with
  | Ok a => Ok (f a)
  | Raise e => Raise e
  end.

(** ** Library values the notebook handles *)

Definition tensor : Type := Ndarray.t F32.t.
Definition image : Type := Ndarray.t F32.t.

(** The table [index_table_from_tensor] builds: key [mapping[i]] maps to
    [i], a key that is not in [mapping] to [default_value]. *)
Record table : Type := { mapping : list string; default_value : Z }.

(** [table.lookup(key)]. *)
Definition lookup_index (tbl : table) (key : string) : Z :=
  match list_find (fun k => k = key) (mapping tbl) with
  | Some (i, _) => Z.of_nat i
  | None => default_value tbl
  end.

(** [tf.one_hot(index, depth)] with the default on and off values, in
    [float32]: an index outside [0 <= index < depth] gives all zeros. *)
Definition one_hot (index : Z) (depth : nat) : list F32.t :=
  (fun k => if decide (Z.of_nat k = index) then F32.one else F32.zero) <$> seq 0 depth.

(** [tf.string_split([source], delimiter).values] with the default
    [skip_empty=True]: every byte of [delimiter] is a split point and empty
    tokens are dropped. *)
Definition emit (token : string) : list string :=
  if decide (token = EmptyString) then [] else [token].

Fixpoint string_split_from (delimiter : list Ascii.ascii) (token source : string) : list string :=
  match source with
  | EmptyString => emit token
  | String c rest =>
      if decide (c ∈ delimiter)
      then emit token ++ string_split_from delimiter EmptyString rest
      else string_split_from delimiter (token +:+ String c EmptyString) rest
  end.

Definition string_split (source : string) (delimiter : list Ascii.ascii) : list string :=
  string_split_from delimiter EmptyString source.

(** The bytes of a string, and a path component: a non-empty string
    without a separator. *)
Fixpoint bytes_of (s : string) : list Ascii.ascii :=
  match s with
  | EmptyString => []
  | String c rest => c :: bytes_of rest
  end.

Definition component (sep : Ascii.ascii) (s : string) : Prop :=
  s <> EmptyString /\ sep ∉ bytes_of s.

(** [values[-2]]: the second-to-last element; out of bounds on fewer than
    two elements. *)
Definition second_to_last {A} (values : list A) : result A :=
  match reverse values with
  | _ :: x :: _ => Ok x
  | _ => Raise (Exception "InvalidArgumentError")
  end.

(** The dataset graphs of [tf.data], as far as the notebook builds them. *)
Inductive dataset : Type :=
| FromTensorSlices (images labels : tensor)
| ListFiles (file_pattern : string) (shuffle : bool)
| Shuffle (input : dataset) (buffer_size : Z)
| Repeat (input : dataset) (count : option Z)
| Batch (input : dataset) (batch_size : Z)
| Prefetch (input : dataset) (buffer_size : option Z)
| ShuffleAndRepeat (input : dataset) (buffer_size : Z) (count : option Z)
| MapAndBatch (input : dataset) (map_func : string -> result (image * list F32.t))
    (batch_size : Z) (num_parallel_calls : option Z).

(** What [dataset.apply] takes: a function from datasets to datasets. *)
Definition transformation : Type := dataset -> dataset.

(** The dataset a graph starts from, and the transformations applied to it,
    first applied first. *)
Inductive op : Type :=
| OpShuffle (buffer_size : Z)
| OpRepeat (count : option Z)
| OpBatch (batch_size : Z)
| OpPrefetch (buffer_size : option Z)
| OpShuffleAndRepeat (buffer_size : Z) (count : option Z)
| OpMapAndBatch (batch_size : Z) (num_parallel_calls : option Z).

Fixpoint source_of (d : dataset) : dataset :=
  match d with
  | FromTensorSlices _ _ | ListFiles _ _ => d
  | Shuffle d' _ | Repeat d' _ | Batch d' _ | Prefetch d' _
  | ShuffleAndRepeat d' _ _ | MapAndBatch d' _ _ _ => source_of d'
  end.

Fixpoint transformations (d : dataset) : list op :=
  match d with
  | FromTensorSlices _ _ | ListFiles _ _ => []
  | Shuffle d' b => transformations d' ++ [OpShuffle b]
  | Repeat d' c => transformations d' ++ [OpRepeat c]
  | Batch d' b => transformations d' ++ [OpBatch b]
  | Prefetch d' b => transformations d' ++ [OpPrefetch b]
  | ShuffleAndRepeat d' b c => transformations d' ++ [OpShuffleAndRepeat b c]
  | MapAndBatch d' _ b n => transformations d' ++ [OpMapAndBatch b n]
  end.

(** Does the graph reorder its elements at random, and does it pass over
    its source more than once? *)
Definition op_shuffles (o : op) : bool :=
  match o with
  | OpShuffle _ | OpShuffleAndRepeat _ _ => true
  | _ => false
  end.

Definition op_repeats (o : op) : bool :=
  match o with
  | OpRepeat _ | OpShuffleAndRepeat _ _ => true
  | _ => false
  end.

Definition shuffled (d : dataset) : bool :=
  match source_of d with
  | ListFiles _ s => s
  | _ => false
  end || existsb op_shuffles (transformations d).

Definition repeated (d : dataset) : bool := existsb op_repeats (transformations d).

(** ** Programs over library calls

    The calls the notebook's functions make, each with the type of what it
    returns. *)
Inductive call : Type -> Type :=
| from_tensor_slices (images labels : tensor) : call dataset
| list_files (file_pattern : string) (shuffle : bool) : call dataset
| ds_shuffle (self : dataset) (buffer_size : Z) : call dataset
| ds_repeat (self : dataset) (count : option Z) : call dataset
| ds_batch (self : dataset) (batch_size : Z) : call dataset
| ds_prefetch (self : dataset) (buffer_size : option Z) : call dataset
| ds_apply (self : dataset) (transformation_func : transformation) : call dataset
| shuffle_and_repeat (buffer_size : Z) (count : option Z) : call transformation
| map_and_batch (map_func : string -> result (image * list F32.t))
    (batch_size : Z) (num_parallel_calls : option Z) : call transformation
| tf_constant (value : list string) : call (list string)
| index_table_from_tensor (mapping : list string) : call table
| cpu_count : call (option Z)
| time_time : call Q.

(** A function body: it returns, or makes a call and goes on with what the
    call returned, or the interpreter raises.  There is no construct that
    catches an exception, as there is no [try] in the notebook. *)
Inductive Prog (A : Type) : Type :=
| Return (a : A)
| Call {X : Type} (c : call X) (k : X -> Prog A)
| Fault (e : exn).
Arguments Return {A} a.
Arguments Call {A X} c k.
Arguments Fault {A} e.

Fixpoint prog_bind {A B} (f : A -> Prog B) (p : Prog A) : Prog B :=
  match p with
  | Return a => f a
  | Call c k => Call c (fun x => prog_bind f (k x))
  | Fault e => Fault e
  end.

#[export] Instance Prog_ret : MRet Prog := fun A a => Return a.
#[export] Instance Prog_bind : MBind Prog := fun A B f p => prog_bind f p.

Definition do {X} (c : call X) : Prog X := Call c Return.

(** Reading an attribute that may not have been set. *)
Definition getattr {A} (name : string) (attribute : option A) : Prog A :=
  match attribute with
  | Some a => Return a
  | None => Fault (AttributeError name)
  end.

(** One call as it happened: what was called and what came back. *)
Record event : Type := Event { ev_type : Type; ev_call : call ev_type; ev_result : result ev_type }.
Arguments Event {ev_type} ev_call ev_result.

Definition raised (e : exn) (ev : event) : Prop := ev_result ev = Raise e.

(** The library: what each call does in a state [W] of the outside world. *)
Definition library (W : Type) : Type := forall X, call X -> W -> result X * W.

Record outcome (W A : Type) : Type :=
  Outcome { returned : result A; world : W; trace : list event }.
Arguments Outcome {W A} returned world trace.
Arguments returned {W A} o.
Arguments world {W A} o.
Arguments trace {W A} o.

(** Running a body against a library; an exception ends the run and is the
    result. *)
Fixpoint run {W A} (lib : library W) (p : Prog A) (w : W) : outcome W A :=
  match p with
  | Return a => Outcome (Ok a) w []
  | Fault e => Outcome (Raise e) w []
  | Call c k =>
      match lib _ c w with
      | (Ok x, w') =>
          let o := run lib (k x) w' in
          Outcome (returned o) (world o) (Event c (Ok x) :: trace o)
      | (Raise e, w') => Outcome (Raise e) w' [Event c (Raise e)]
      end
  end.

(** The interpreter never raises in the body. *)
Fixpoint fault_free {A} (p : Prog A) : Prop :=
  match p with
  | Return _ => True
  | Call c k => forall x, fault_free (k x)
  | Fault _ => False
  end.

(** The reference library: datasets are built as graphs, nothing raises,
    and the only state is the number of clock readings taken so far. *)
Definition tf (clock : nat -> Q) (cpus : option Z) : library nat := fun X c w =>
  match c in call X return result X * nat with
  | from_tensor_slices images labels => (Ok (FromTensorSlices images labels), w)
  | list_files file_pattern shuffle => (Ok (ListFiles file_pattern shuffle), w)
  | ds_shuffle self buffer_size => (Ok (Shuffle self buffer_size), w)
  | ds_repeat self count => (Ok (Repeat self count), w)
  | ds_batch self batch_size => (Ok (Batch self batch_size), w)
  | ds_prefetch self buffer_size => (Ok (Prefetch self buffer_size), w)
  | ds_apply self transformation_func => (Ok (transformation_func self), w)
  | shuffle_and_repeat buffer_size count =>
      (Ok (fun d => ShuffleAndRepeat d buffer_size count), w)
  | map_and_batch map_func batch_size num_parallel_calls =>
      (Ok (fun d => MapAndBatch d map_func batch_size num_parallel_calls), w)
  | tf_constant value => (Ok value, w)
  | index_table_from_tensor mapping =>
      (Ok {| mapping := mapping; default_value := -1 |}, w)
  | cpu_count => (Ok cpus, w)
  | time_time => (Ok (clock w), S w)
  end.

(** ** Cell 17: the input function of the Fashion-MNIST part *)
Module FashionMNIST.

Definition input_fn (images labels : tensor) (epochs : option Z) (batch_size : Z)
  : Prog dataset :=
  dataset ← do (from_tensor_slices images labels);
  let SHUFFLE_SIZE := 5000 in
  dataset ← do (ds_shuffle dataset SHUFFLE_SIZE);
  dataset ← do (ds_repeat dataset epochs);
  dataset ← do (ds_batch dataset batch_size);
  dataset ← do (ds_prefetch dataset None);
  mret dataset.

End FashionMNIST.

(** ** Cells 30 to 33: the input function of the retinal OCT part *)
Module OCT.

Definition labels : list string := ["CNV"; "DME"; "DRUSEN"; "NORMAL"]%string.

(** What [_map_func] needs from the host and from [tf.image]: the path
    separator [os.sep] and the operations that turn a file into an image. *)
Record host : Type := {
  os_sep : Ascii.ascii;
  read_file : string -> result string;
  decode_jpeg : string -> Z -> result image;
  convert_image_dtype : image -> result image;
  resize_images : image -> Z * Z -> result image
}.

(** The keyword arguments of [input_fn] and their defaults. *)
Record options : Type := {
  image_size : Z * Z;
  shuffle : bool;
  batch_size : Z;
  num_epochs : option Z;
  buffer_size : Z;
  prefetch_buffer_size : option Z
}.

Definition defaults : options := {|
  image_size := (224, 224);
  shuffle := false;
  batch_size := 64;
  num_epochs := None;
  buffer_size := 4096;
  prefetch_buffer_size := None
|}.

(** The closure [_map_func], with the variables it captures as its first
    arguments. *)
Definition _map_func (h : host) (tbl : table) (num_classes : nat) (image_size : Z * Z)
    (filename : string) : result (image * list F32.t) :=
  label ← second_to_last (string_split filename [os_sep h]);
  contents ← read_file h filename;
  image ← decode_jpeg h contents 3;
  image ← convert_image_dtype h image;
  image ← resize_images h image image_size;
  mret (image, one_hot (lookup_index tbl label) num_classes).

(** The image half of [_map_func] on its own: the file read, decoded with
    three channels, converted to [float32] and resized. *)
Definition decoded_image (h : host) (image_size : Z * Z) (filename : string)
  : result image :=
  contents ← read_file h filename;
  image ← decode_jpeg h contents 3;
  image ← convert_image_dtype h image;
  resize_images h image image_size.

Definition input_fn (h : host) (file_pattern : string) (labels : list string)
    (o : options) : Prog dataset :=
  mapping ← do (tf_constant labels);
  tbl ← do (index_table_from_tensor mapping);
  let num_classes := length labels in
  dataset ← do (list_files file_pattern (shuffle o));
  dataset ← (if bool_decide (num_epochs o <> None) && shuffle o then
               fused ← do (shuffle_and_repeat (buffer_size o) (num_epochs o));
               do (ds_apply dataset fused)
             else if shuffle o then
               do (ds_shuffle dataset (buffer_size o))
             else if bool_decide (num_epochs o <> None) then
               do (ds_repeat dataset (num_epochs o))
             else mret dataset);
  cpus ← do cpu_count;
  batched ← do (map_and_batch (_map_func h tbl num_classes (image_size o))
                  (batch_size o) cpus);
  dataset ← do (ds_apply dataset batched);
  dataset ← do (ds_prefetch dataset (prefetch_buffer_size o));
  mret dataset.

(** The four cases of the branch on [shuffle] and [num_epochs] as the
    description names them: when each is taken and what it applies to the
    list of files. *)
Inductive file_transformation : Type :=
| FusedShuffleAndRepeat
| ShuffleAlone
| RepeatAlone
| NoTransformation.

Definition taken_when (ft : file_transformation) (o : options) : Prop :=
  match ft with
  | FusedShuffleAndRepeat => shuffle o = true /\ num_epochs o <> None
  | ShuffleAlone => shuffle o = true /\ num_epochs o = None
  | RepeatAlone => shuffle o = false /\ num_epochs o <> None
  | NoTransformation => shuffle o = false /\ num_epochs o = None
  end.

Definition applies (ft : file_transformation) (o : options) : list op :=
  match ft with
  | FusedShuffleAndRepeat => [OpShuffleAndRepeat (buffer_size o) (num_epochs o)]
  | ShuffleAlone => [OpShuffle (buffer_size o)]
  | RepeatAlone => [OpRepeat (num_epochs o)]
  | NoTransformation => []
  end.

End OCT.

(** ** Cell 19: the hook that records the time of each step *)
Module TimeHistory.

(** The two attributes of the object; [None] while an attribute has not
    been assigned. *)
Record t : Type := { times : option (list Q); iter_time_start : option Q }.

(** A fresh [TimeHistory()]. *)
Definition new : t := {| times := None; iter_time_start := None |}.

Definition begin (self : t) : Prog t :=
  mret {| times := Some []; iter_time_start := iter_time_start self |}.

Definition before_run (self : t) : Prog t :=
  now ← do time_time;
  mret {| times := times self; iter_time_start := Some now |}.

Definition after_run (self : t) : Prog t :=
  recorded ← getattr "times" (times self);
  now ← do time_time;
  start ← getattr "iter_time_start" (iter_time_start self);
  mret {| times := Some (recorded ++ [(now - start)%Q]);
          iter_time_start := iter_time_start self |}.

(** The calls a training session makes on the hook: [begin] once, then
    [before_run] and [after_run] around each of [n] steps. *)
Fixpoint steps (n : nat) (self : t) : Prog t :=
  match n with
  | O => mret self
  | S n' => self ← before_run self; self ← after_run self; steps n' self
  end.

Definition session (n : nat) (self : t) : Prog t :=
  self ← begin self; steps n self.

End TimeHistory.

(** The elapsed times of [n] steps when the clock has been read [w] times. *)
Definition elapsed (clock : nat -> Q) (w n : nat) : list Q :=
  (fun k => clock (w + 2 * k + 1)%nat - clock (w + 2 * k)%nat)%Q <$> seq 0 n.

(** ** Cells 23 and 24: the throughput figures, over the rationals *)

(** [sum(xs)] of Python: from [0], adding from the left. *)
Definition py_sum (xs : list Q) : Q := foldl Qplus 0%Q xs.

(** [np.mean(xs)]: the sum over the number of elements; not a number for an
    empty list. *)
Definition np_mean (xs : list Q) : option Q :=
  match xs with
  | [] => None
  | _ => Some (foldl Qplus 0%Q xs / inject_Z (Z.of_nat (length xs)))%Q
  end.

Definition total_time (times : list Q) : Q := py_sum times.

(** [BATCH_SIZE*NUM_GPUS/avg_time_per_batch]; [None] where the float that
    is printed is not a number or infinite. *)
Definition images_per_second (BATCH_SIZE NUM_GPUS : Z) (times : list Q) : option Q :=
  avg_time_per_batch ← np_mean times;
  if Qeq_bool avg_time_per_batch 0 then None
  else Some (inject_Z (BATCH_SIZE * NUM_GPUS) / avg_time_per_batch)%Q.

(** The same figures as the description words them. *)
Fixpoint sum_of (xs : list Q) : Q :=
  match xs with
  | [] => 0%Q
  | x :: xs' => (x + sum_of xs')%Q
  end.

Definition arithmetic_mean (xs : list Q) : Q :=
  (sum_of xs / inject_Z (Z.of_nat (length xs)))%Q.

(** ** Cell 37: freezing the layers of the backbone *)

(** A layer object, and the heap of layer objects by address: the lists
    [keras_vgg16.layers] and [model.layers] hold addresses of the same
    objects. *)
Record layer : Type := {
  name : string;
  trainable : bool;
  weights : list tensor
}.

Definition set_trainable (b : bool) (ly : layer) : layer :=
  {| name := name ly; trainable := b; weights := weights ly |}.

(** [xs[:stop]] of Python. *)
Definition slice_until {A} (stop : Z) (xs : list A) : list A :=
  let n := Z.of_nat (length xs) in
  let stop := if decide (stop < 0) then Z.max 0 (stop + n) else Z.min stop n in
  take (Z.to_nat stop) xs.

(** [for layer in layers[:-4]: layer.trainable = False]. *)
Definition freeze (heap : gmap positive layer) (layers : list positive)
  : gmap positive layer :=
  foldl (fun heap l => alter (set_trainable false) l heap) heap (slice_until (-4) layers).

(** ** Sample data *)

(** Two images of 28 by 28 pixels, the first black and the second white. *)
Definition two_images : Ndarray.t Z :=
  Ndarray.mk [2; 28; 28]%nat (replicate 784 0 ++ replicate 784 255).

(** The model of cells 35 to 37: the nineteen layers of
    [VGG16(include_top=False)] at addresses 1 to 19, then [Flatten] and
    [Dense] at 20 and 21, all trainable as Keras creates them. *)
Definition vgg16_layer_names : list string :=
  ["input_1"; "block1_conv1"; "block1_conv2"; "block1_pool";
   "block2_conv1"; "block2_conv2"; "block2_pool";
   "block3_conv1"; "block3_conv2"; "block3_conv3"; "block3_pool";
   "block4_conv1"; "block4_conv2"; "block4_conv3"; "block4_pool";
   "block5_conv1"; "block5_conv2"; "block5_conv3"; "block5_pool"]%string.

Definition new_layer (name : string) : layer :=
  {| name := name; trainable := true; weights := [] |}.

Definition keras_vgg16_layers : list positive := Pos.of_nat <$> seq 1 19.

Definition model_layers : list positive := keras_vgg16_layers ++ [20; 21]%positive.

Definition model_heap : gmap positive layer :=
  list_to_map (zip model_layers
                 (new_layer <$> vgg16_layer_names ++ ["flatten"; "dense"]%string)).

(** A POSIX host on which every file reads as an empty image of the
    requested size. *)
Definition posix_host : OCT.host := {|
  OCT.os_sep := "/"%char;
  OCT.read_file := fun _ => Ok EmptyString;
  OCT.decode_jpeg := fun _ channels => Ok (Ndarray.mk [0; 0; Z.to_nat channels]%nat []);
  OCT.convert_image_dtype := fun image => Ok image;
  OCT.resize_images := fun image size =>
    Ok (Ndarray.mk [Z.to_nat (fst size); Z.to_nat (snd size); 3]%nat [])
|}.

(** The addresses of the layers that are not trainable. *)
Definition frozen_layers (heap : gmap positive layer) (layers : list positive)
  : list positive :=
  filter (fun l => trainable <$> heap !! l = Some false) layers.

(** ** Further definitions *)

From Stdlib Require Import Lqa.

(** The rational value of a normalised pixel. *)
Definition pixel_value (pixel : Z) : Q := default 0%Q (F32.to_Q (normalize pixel)).

(** [os.path.join(a, *p)] of [posixpath], as cell 30 calls it: a part that
    starts with the separator replaces what was joined so far, a part that
    follows nothing or a separator is appended as it is, any other part is
    appended after a separator. *)
Definition posix_sep : Ascii.ascii := "/"%char.

Definition startswith_sep (s : string) : bool :=
  match s with
  | String c _ => bool_decide (c = posix_sep)
  | EmptyString => false
  end.

Fixpoint endswith_sep (s : string) : bool :=
  match s with
  | EmptyString => false
  | String c EmptyString => bool_decide (c = posix_sep)
  | String _ rest => endswith_sep rest
  end.

Definition join_part (path b : string) : string :=
  if startswith_sep b then b
  else if bool_decide (path = EmptyString) || endswith_sep path then path +:+ b
  else path +:+ String posix_sep b.

Definition os_path_join (a : string) (p : list string) : string :=
  foldl join_part a p.

(** Cell 30. *)
Definition train_folder : string := os_path_join "OCT2017" ["train"; "**"; "*.jpeg"]%string.

(** How many elements a dataset yields, after the documented behaviour of
    the [tf.data] transformations: [shuffle] and [prefetch] keep the number,
    [repeat(count)] multiplies it, without end for a missing or negative
    [count], and [batch] groups the elements by [batch_size], the last batch
    possibly smaller.  A buffer or batch size that is not positive is an
    invalid argument. *)
Inductive cardinality : Type :=
| Finite (n : N)
| Infinite.

Definition ceil_div (n b : N) : N := ((n + b - 1) / b)%N.

Definition card_shuffle (buffer_size : Z) (c : cardinality) : option cardinality :=
  if decide (0 < buffer_size) then Some c else None.

Definition card_repeat (count : option Z) (c : cardinality) : cardinality :=
  match c, count with
  | Finite 0%N, _ => Finite 0
  | _, Some 0 => Finite 0
  | Finite n, Some k => if decide (k < 0) then Infinite else Finite (n * Z.to_N k)
  | _, _ => Infinite
  end.

Arguments card_repeat : simpl never.

Definition card_batch (batch_size : Z) (c : cardinality) : option cardinality :=
  if decide (0 < batch_size) then
    Some match c with
         | Finite n => Finite (ceil_div n (Z.to_N batch_size))
         | Infinite => Infinite
         end
  else None.

Definition card_op (o : op) (c : cardinality) : option cardinality :=
  match o with
  | OpShuffle buffer_size => card_shuffle buffer_size c
  | OpRepeat count => Some (card_repeat count c)
  | OpBatch batch_size => card_batch batch_size c
  | OpPrefetch _ => Some c
  | OpShuffleAndRepeat buffer_size count =>
      card_repeat count <$> card_shuffle buffer_size c
  | OpMapAndBatch batch_size _ => card_batch batch_size c
  end.

(** The number of elements after a list of transformations, applied first
    to last to a source of [c] elements. *)
Fixpoint card_after (ops : list op) (c : cardinality) : option cardinality :=
  match ops with
  | [] => Some c
  | o :: ops' => c' ← card_op o c; card_after ops' c'
  end.

(** The layers of a list that are trainable. *)
Definition trainable_layers (heap : gmap positive layer) (layers : list positive)
  : list positive :=
  filter (fun l => trainable <$> heap !! l = Some true) layers.


(** The table cell 33 builds from [labels] under the reference library, and
    the function its dataset maps over the file names. *)
Definition label_table (labels : list string) : table :=
  {| mapping := labels; default_value := -1 |}.

Definition oct_map_func (h : OCT.host) (labels : list string) (o : OCT.options)
  : string -> result (image * list F32.t) :=
  OCT._map_func h (label_table labels) (length labels) (OCT.image_size o).

(** * Properties *)

(** ** Normalised pixels (cell 5) *)

Lemma in_unit_intervalb_sound x :
  F32.in_unit_intervalb x = true -> F32.in_unit_interval x.
Proof.
  unfold F32.in_unit_intervalb, F32.in_unit_interval.
  destruct (F32.to_Q x) as [q|]; [|discriminate].
  intros [H0 H1]%andb_prop. exists q.
  by rewrite <- !Qle_bool_iff.
Qed.

(** All 256 quotients, computed. *)
Lemma normalize_table :
  forallb (fun n => F32.in_unit_intervalb (normalize (Z.of_nat n))) (seq 0 256) = true.
Proof. vm_compute. reflexivity. Qed.

Lemma normalize_in_unit_interval (pixel : Z) :
  0 <= pixel <= 255 -> F32.in_unit_interval (normalize pixel).
Proof.
  intros Hp. apply in_unit_intervalb_sound.
  pose proof normalize_table as Ht.
  rewrite forallb_forall in Ht.
  specialize (Ht (Z.to_nat pixel)).
  rewrite Z2Nat.id in Ht by lia.
  apply Ht, in_seq. lia.
Qed.

Example normalize_black : normalize 0 = F32.zero.
Proof. reflexivity. Qed.

Example normalize_white : normalize 255 = F32.one.
Proof. reflexivity. Qed.

Example normalize_1 : F32.to_Q (normalize 1) = Some (8421505 # 2147483648)%Q.
Proof. reflexivity. Qed.

Lemma reshape_Some {A} (newshape : list nat) (a out : Ndarray.t A) :
  Ndarray.reshape newshape a = Some out ->
  Ndarray.size newshape = length (Ndarray.data a) /\
  out = Ndarray.mk newshape (Ndarray.data a).
Proof.
  unfold Ndarray.reshape. case_decide; [|discriminate].
  intros [= <-]. done.
Qed.

Lemma prepare_images_Some (images : Ndarray.t Z) (out : Ndarray.t F32.t) :
  prepare_images images = Some out ->
  exists SIZE, Ndarray.len images = Some SIZE /\
    Ndarray.shape out = [SIZE; 28; 28; 1]%nat /\
    Ndarray.data out = normalize <$> Ndarray.data images.
Proof.
  unfold prepare_images. destruct (Ndarray.len images) as [SIZE|]; [|discriminate].
  simpl. intros [_ ->]%reshape_Some. by exists SIZE.
Qed.

(** C4. Every pixel of a [uint8] image array, an integer from 0 to 255, is
    taken by the conversion to [float32] and the division by 255 to a
    finite number of the closed interval from 0 to 1: pixel by pixel, for the
    whole normalised array, and so for the array that cell 5 leaves in
    [train_images] and in [test_images]. *)
Theorem normalized_pixels_in_unit_interval (images : Ndarray.t Z) :
  Forall (fun pixel => 0 <= pixel <= 255) (Ndarray.data images) ->
  Forall F32.in_unit_interval (Ndarray.data (Ndarray.map normalize images)) /\
  forall out, prepare_images images = Some out ->
    Forall F32.in_unit_interval (Ndarray.data out).
Proof.
  intros Hpix.
  assert (Forall F32.in_unit_interval (normalize <$> Ndarray.data images)) as Hn.
  { apply Forall_fmap. eapply Forall_impl; [exact Hpix|].
    intros p Hp. by apply normalize_in_unit_interval. }
  split; [exact Hn|].
  intros out (SIZE & _ & _ & ->)%prepare_images_Some. exact Hn.
Qed.

Lemma normalized_pixels_in_unit_interval_witness :
  Forall (fun pixel => 0 <= pixel <= 255) (Ndarray.data two_images) /\
  Forall F32.in_unit_interval (Ndarray.data (Ndarray.map normalize two_images)) /\
  is_Some (prepare_images two_images).
Proof.
  assert (Forall (fun pixel => 0 <= pixel <= 255) (Ndarray.data two_images)) as H.
  { apply Forall_app. split; apply Forall_replicate; lia. }
  split; [exact H|]. split.
  - exact (proj1 (normalized_pixels_in_unit_interval two_images H)).
  - vm_compute. eauto.
Defined.

(** ** Reshaping (cell 5) *)

Lemma offset_trailing_one (shape idx : list nat) :
  Ndarray.offset (shape ++ [1%nat]) (idx ++ [0%nat]) = Ndarray.offset shape idx.
Proof.
  revert idx. induction shape as [|n shape IH]; intros [|i idx]; simpl; try done.
  - case_decide; [|done]. by destruct idx.
  - case_decide; [|done]. by destruct shape.
  - case_decide; [|done]. rewrite IH.
    replace (Ndarray.size (shape ++ [1%nat])) with (Ndarray.size shape); [done|].
    clear. induction shape as [|m shape IH]; simpl; [done|]. by rewrite <- IH.
Qed.

Lemma get_reshape_trailing_one {A} (a : Ndarray.t A) (shape idx : list nat) :
  Ndarray.shape a = shape ->
  Ndarray.get (Ndarray.mk (shape ++ [1%nat]) (Ndarray.data a)) (idx ++ [0%nat]) =
  Ndarray.get a idx.
Proof.
  intros <-. unfold Ndarray.get. simpl. by rewrite offset_trailing_one.
Qed.

Lemma get_map {A B} (f : A -> B) (a : Ndarray.t A) (idx : list nat) :
  Ndarray.get (Ndarray.map f a) idx = f <$> Ndarray.get a idx.
Proof.
  unfold Ndarray.get, Ndarray.map. simpl.
  destruct (Ndarray.offset (Ndarray.shape a) idx) as [o|]; simpl; [|done].
  apply list_lookup_fmap.
Qed.

(** C7. The reshape to [(N, 28, 28, 1)] goes through exactly when the array
    holds [N * 28 * 28] values; the array it gives has that shape and the
    very same buffer, so the same number of elements and the same values,
    and the element at [[i, j, k, 0]] is the element the input of shape
    [(N, 28, 28)] had at [[i, j, k]].  In cell 5 it is applied to the
    normalised array, so the cell leaves at [[i, j, k, 0]] the normalised
    pixel [[i, j, k]] of the loaded array. *)
Theorem reshape_preserves_elements (N : nat) :
  (forall (A : Type) (a : Ndarray.t A),
     (is_Some (Ndarray.reshape [N; 28; 28; 1]%nat a) <->
        length (Ndarray.data a) = (N * 28 * 28)%nat) /\
     forall out, Ndarray.reshape [N; 28; 28; 1]%nat a = Some out ->
       Ndarray.shape out = [N; 28; 28; 1]%nat /\
       Ndarray.data out = Ndarray.data a /\
       length (Ndarray.data out) = length (Ndarray.data a) /\
       Ndarray.wf out /\
       (Ndarray.shape a = [N; 28; 28]%nat ->
        forall i j k : nat,
          Ndarray.get out [i; j; k; 0%nat] = Ndarray.get a [i; j; k])) /\
  (forall images : Ndarray.t Z,
     Ndarray.shape images = [N; 28; 28]%nat -> Ndarray.wf images ->
     exists out, prepare_images images = Some out /\
       Ndarray.shape out = [N; 28; 28; 1]%nat /\
       Ndarray.data out = normalize <$> Ndarray.data images /\
       forall i j k : nat,
         Ndarray.get out [i; j; k; 0%nat] = normalize <$> Ndarray.get images [i; j; k]).
Proof.
  split.
  - intros A a. split.
    + unfold Ndarray.reshape. case_decide as Hs; simpl in Hs; split.
      * intros _. lia.
      * eauto.
      * by intros [? ?].
      * intros Hl. lia.
    + intros out [Hs ->]%reshape_Some. simpl. repeat split; try done.
      intros Ha i j k.
      apply (get_reshape_trailing_one a [N; 28; 28]%nat [i; j; k] Ha).
  - intros images Hshape Hwf. unfold prepare_images, Ndarray.len. rewrite Hshape. simpl.
    unfold Ndarray.wf in Hwf. rewrite Hshape in Hwf. simpl in Hwf.
    unfold Ndarray.reshape. rewrite decide_True by (simpl; rewrite length_fmap; lia).
    eexists. split; [reflexivity|]. simpl. repeat split.
    intros i j k. rewrite <- get_map.
    apply (get_reshape_trailing_one (Ndarray.map normalize images)
             [N; 28; 28]%nat [i; j; k]). exact Hshape.
Qed.

Example reshape_wrong_size :
  Ndarray.reshape [2; 28; 28; 1]%nat (Ndarray.mk [3]%nat [1; 2; 3]) = None.
Proof. reflexivity. Qed.

(** ** One-hot labels (cell 7) *)

Lemma np_index_in_range (n : nat) (l : Z) :
  0 <= l < Z.of_nat n -> np_index n l = Some (Z.to_nat l).
Proof. intros Hl. unfold np_index. by rewrite decide_True. Qed.

Lemma f32_sum_zeros (x : F32.t) (n : nat) :
  x = F32.zero \/ x = F32.one -> foldl F32.add x (replicate n F32.zero) = x.
Proof.
  intros Hx. induction n as [|n IH]; simpl; [done|].
  destruct Hx as [-> | ->]; exact IH.
Qed.

Lemma f32_sum_one_hot (k n : nat) :
  (k < n)%nat -> f32_sum (<[k := F32.one]> (replicate n F32.zero)) = F32.one.
Proof.
  unfold f32_sum. revert k. induction n as [|n IH]; intros k Hk; [lia|].
  destruct k as [|k]; simpl.
  - apply (f32_sum_zeros F32.one). by right.
  - apply IH. lia.
Qed.

Lemma one_hot_row_lookup (k n j : nat) :
  (k < n)%nat -> (j < n)%nat ->
  <[k := F32.one]> (replicate n F32.zero) !! j =
    Some (if decide (j = k) then F32.one else F32.zero).
Proof.
  intros Hk Hj. case_decide as Hjk.
  - subst j. apply list_lookup_insert_eq. by rewrite length_replicate.
  - rewrite list_lookup_insert_ne by done. by apply lookup_replicate_2.
Qed.

Example to_categorical_2 :
  to_categorical [2] LABEL_DIMENSIONS =
    Some [[F32.zero; F32.zero; F32.one; F32.zero; F32.zero;
           F32.zero; F32.zero; F32.zero; F32.zero; F32.zero]].
Proof. reflexivity. Qed.

Example to_categorical_out_of_range : to_categorical [2; 10] LABEL_DIMENSIONS = None.
Proof. reflexivity. Qed.

(** C5. Every class label [l] from 0 to 9 is encoded as a row of
    [LABEL_DIMENSIONS = 10] entries with 1 at index [l] and 0 at every other
    index, whose entries sum to exactly 1; the encoding of a label vector
    has one such row per label. *)
Theorem to_categorical_one_hot (y : list Z) :
  Forall (fun l => 0 <= l < 10) y ->
  exists rows, to_categorical y LABEL_DIMENSIONS = Some rows /\
    length rows = length y /\
    forall (i : nat) (l : Z), y !! i = Some l ->
      exists row, rows !! i = Some row /\
        length row = 10%nat /\
        (forall j : nat, (j < 10)%nat ->
           row !! j = Some (if decide (j = Z.to_nat l) then F32.one else F32.zero)) /\
        f32_sum row = F32.one.
Proof.
  intros Hy. unfold to_categorical, LABEL_DIMENSIONS. simpl.
  set (f := fun l : Z => k ← np_index 10 l; Some (<[k := F32.one]> (replicate 10 F32.zero))).
  assert (forall l, 0 <= l < 10 ->
            f l = Some (<[Z.to_nat l := F32.one]> (replicate 10 F32.zero))) as Hf.
  { intros l Hl. unfold f. rewrite np_index_in_range by (simpl; lia). done. }
  exists ((fun l => <[Z.to_nat l := F32.one]> (replicate 10 F32.zero)) <$> y).
  split; [|split].
  - apply mapM_Some. apply Forall2_fmap_r, Forall_Forall2_diag.
    eapply Forall_impl; [exact Hy|]. intros l Hl. by apply Hf.
  - by rewrite length_fmap.
  - intros i l Hi. eexists. split; [by rewrite list_lookup_fmap, Hi|].
    pose proof (Forall_lookup_1 _ _ _ _ Hy Hi) as Hl. simpl in Hl.
    split; [by rewrite length_insert, length_replicate|]. split.
    + intros j Hj. apply one_hot_row_lookup; lia.
    + apply f32_sum_one_hot. lia.
Qed.

Lemma to_categorical_one_hot_witness :
  Forall (fun l => 0 <= l < 10) [2; 0; 9] /\
  exists rows, to_categorical [2; 0; 9] LABEL_DIMENSIONS = Some rows /\
    length rows = 3%nat.
Proof.
  assert (Forall (fun l => 0 <= l < 10) [2; 0; 9]) as H.
  { repeat constructor; lia. }
  split; [exact H|].
  destruct (to_categorical_one_hot [2; 0; 9] H) as (rows & Hr & Hl & _).
  exists rows. split; [exact Hr|exact Hl].
Defined.

(** ** Throughput figures (cells 23 and 24) *)

Lemma foldl_Qplus (a : Q) (xs : list Q) :
  (foldl Qplus a xs == a + sum_of xs)%Q.
Proof.
  revert a. induction xs as [|x xs IH]; intros a; simpl.
  - by rewrite Qplus_0_r.
  - rewrite IH. by rewrite Qplus_assoc.
Qed.

Lemma py_sum_sum_of (xs : list Q) : (py_sum xs == sum_of xs)%Q.
Proof. unfold py_sum. rewrite foldl_Qplus. apply Qplus_0_l. Qed.

Lemma np_mean_arithmetic_mean (xs : list Q) :
  xs <> [] -> exists avg, np_mean xs = Some avg /\ (avg == arithmetic_mean xs)%Q.
Proof.
  intros Hxs. destruct xs as [|x xs]; [done|].
  eexists. split; [reflexivity|].
  unfold arithmetic_mean. by rewrite foldl_Qplus, Qplus_0_l.
Qed.

(** C6. With at least one step time recorded, the total training time is
    the sum of the recorded times, and the images per second are
    [BATCH_SIZE * NUM_GPUS] divided by the arithmetic mean of the recorded
    times, over the rationals; the quotient is there whenever the mean is
    not zero. *)
Theorem throughput_figures (BATCH_SIZE NUM_GPUS : Z) (times : list Q) :
  times <> [] ->
  (total_time times == sum_of times)%Q /\
  match images_per_second BATCH_SIZE NUM_GPUS times with
  | Some ips => (ips == inject_Z (BATCH_SIZE * NUM_GPUS) / arithmetic_mean times)%Q
  | None => (arithmetic_mean times == 0)%Q
  end.
Proof.
  intros Hne. split; [apply py_sum_sum_of|].
  destruct (np_mean_arithmetic_mean times Hne) as (avg & Havg & Heq).
  unfold images_per_second. rewrite Havg. simpl.
  destruct (Qeq_bool avg 0) eqn:Hz.
  - apply Qeq_bool_iff in Hz. by rewrite <- Heq.
  - by rewrite Heq.
Qed.

Lemma throughput_figures_witness :
  [1 # 2; 1 # 4; 1 # 4]%Q <> [] /\
  (total_time [1 # 2; 1 # 4; 1 # 4] == 1)%Q /\
  exists ips, images_per_second 512 2 [1 # 2; 1 # 4; 1 # 4]%Q = Some ips /\ (ips == 3072)%Q.
Proof.
  assert ([1 # 2; 1 # 4; 1 # 4]%Q <> []) as H by discriminate.
  split; [exact H|].
  pose proof (throughput_figures 512 2 _ H) as [Ht Hi].
  split.
  - rewrite Ht. reflexivity.
  - destruct (images_per_second 512 2 [1 # 2; 1 # 4; 1 # 4]%Q) as [ips|] eqn:E.
    + exists ips. split; [reflexivity|]. rewrite Hi. reflexivity.
    + discriminate E.
Defined.

(** ** Freezing the backbone (cell 37) *)

Lemma slice_until_minus_4 {A} (xs : list A) :
  slice_until (-4) xs = take (length xs - 4) xs.
Proof.
  unfold slice_until. rewrite decide_True by lia. f_equal. lia.
Qed.

Lemma foldl_alter_notin (f : layer -> layer) (ls : list positive)
    (heap : gmap positive layer) (l : positive) :
  l ∉ ls -> foldl (fun heap l => alter f l heap) heap ls !! l = heap !! l.
Proof.
  revert heap. induction ls as [|l' ls IH]; intros heap Hl; simpl; [done|].
  apply not_elem_of_cons in Hl as [Hne Hl].
  rewrite IH by done. by apply lookup_alter_ne.
Qed.

Lemma foldl_alter_in (f : layer -> layer) (ls : list positive)
    (heap : gmap positive layer) (l : positive) :
  (forall ly, f (f ly) = f ly) -> l ∈ ls ->
  foldl (fun heap l => alter f l heap) heap ls !! l = f <$> heap !! l.
Proof.
  intros Hf. revert heap. induction ls as [|l' ls IH]; intros heap Hl; simpl.
  - by apply elem_of_nil in Hl.
  - destruct (decide (l ∈ ls)) as [Hin|Hnin].
    + rewrite IH by done. destruct (decide (l = l')) as [->|Hne].
      * rewrite lookup_alter_eq. destruct (heap !! l'); simpl; [|done]. by rewrite Hf.
      * by rewrite lookup_alter_ne.
    + apply elem_of_cons in Hl as [->|Hl]; [|done].
      rewrite foldl_alter_notin by done. apply lookup_alter_eq.
Qed.

Example slice_until_six : slice_until (-4) [1; 2; 3; 4; 5; 6] = [1; 2].
Proof. reflexivity. Qed.

Example slice_until_short : slice_until (-4) [1; 2; 3] = [].
Proof. reflexivity. Qed.

(** C9. The loop sets [trainable] to [False] on the layers of
    [keras_vgg16] other than its last four and changes nothing else: the
    last four layers and every layer that is not in [keras_vgg16.layers],
    such as the added [Flatten] and [Dense] layers, are as they were; a layer
    that was trainable ends frozen exactly when it is one of the layers
    before the last four; no name and no weights change. *)
Theorem freezing_frame (heap : gmap positive layer) (layers : list positive) :
  NoDup layers ->
  let frozen := take (length layers - 4) layers in
  let last_four := drop (length layers - 4) layers in
  let heap' := freeze heap layers in
  (forall l, l ∈ frozen -> heap' !! l = set_trainable false <$> heap !! l) /\
  (forall l, l ∈ last_four -> heap' !! l = heap !! l) /\
  (forall l, l ∉ layers -> heap' !! l = heap !! l) /\
  (forall l ly, heap !! l = Some ly -> trainable ly = true ->
     (trainable <$> heap' !! l = Some false <-> l ∈ frozen)) /\
  (forall l, name <$> heap' !! l = name <$> heap !! l /\
             weights <$> heap' !! l = weights <$> heap !! l).
Proof.
  intros Hnd frozen last_four heap'.
  assert (forall l, l ∈ frozen -> heap' !! l = set_trainable false <$> heap !! l) as Hin.
  { intros l Hl. unfold heap', freeze. rewrite slice_until_minus_4.
    by apply foldl_alter_in. }
  assert (forall l, l ∉ frozen -> heap' !! l = heap !! l) as Hout.
  { intros l Hl. unfold heap', freeze. rewrite slice_until_minus_4.
    by apply foldl_alter_notin. }
  assert (forall l, l ∈ last_four -> l ∉ frozen) as Hdisj.
  { intros l Hl Hf. rewrite <- (take_drop (length layers - 4) layers) in Hnd.
    apply NoDup_app in Hnd as (_ & Hd & _). by apply (Hd l). }
  repeat split.
  - exact Hin.
  - intros l Hl. by apply Hout, Hdisj.
  - intros l Hl. apply Hout. intros Hf. apply Hl.
    rewrite <- (take_drop (length layers - 4) layers). apply elem_of_app. by left.
  - destruct (decide (l ∈ frozen)) as [Hf|Hf]; [done|].
    rewrite Hout, H by done. simpl. rewrite H0. discriminate.
  - intros Hf. rewrite Hin, H by done. done.
  - destruct (decide (l ∈ frozen)) as [Hf|Hf].
    + rewrite Hin by done. by destruct (heap !! l).
    + by rewrite Hout.
  - destruct (decide (l ∈ frozen)) as [Hf|Hf].
    + rewrite Hin by done. by destruct (heap !! l).
    + by rewrite Hout.
Qed.

Lemma freezing_frame_witness :
  NoDup keras_vgg16_layers /\
  (forall l, l ∈ [20; 21]%positive ->
     freeze model_heap keras_vgg16_layers !! l = model_heap !! l) /\
  frozen_layers (freeze model_heap keras_vgg16_layers) model_layers =
    Pos.of_nat <$> seq 1 15.
Proof.
  assert (NoDup keras_vgg16_layers) as H.
  { apply (bool_decide_unpack _). vm_compute. exact I. }
  split; [exact H|]. split.
  - intros l Hl.
    apply (proj1 (proj2 (proj2 (freezing_frame model_heap keras_vgg16_layers H)))).
    apply elem_of_cons in Hl as [-> | Hl];
      [|apply elem_of_cons in Hl as [-> | Hl]; [|by apply elem_of_nil in Hl]];
      apply (bool_decide_unpack _); vm_compute; exact I.
  - vm_compute. reflexivity.
Defined.

(** ** The step timer (cell 19) *)

Lemma elapsed_S clock w n :
  elapsed clock w (S n) = (clock (S w) - clock w)%Q :: elapsed clock (S (S w)) n.
Proof.
  unfold elapsed. simpl. f_equal.
  - by rewrite Nat.add_0_r, Nat.add_1_r.
  - rewrite <- fmap_S_seq, <- list_fmap_compose. apply list_fmap_ext.
    intros _ k _. simpl. f_equal; [f_equal|]; f_equal; lia.
Qed.

Lemma steps_run clock cpus n : forall (w : nat) (recorded : list Q) (start : option Q),
  exists start',
    returned (run (tf clock cpus) (TimeHistory.steps n
        {| TimeHistory.times := Some recorded; TimeHistory.iter_time_start := start |}) w) =
    Ok {| TimeHistory.times := Some (recorded ++ elapsed clock w n);
          TimeHistory.iter_time_start := start' |}.
Proof.
  induction n as [|n IH]; intros w recorded start.
  - exists start. simpl. by rewrite app_nil_r.
  - destruct (IH (S (S w)) (recorded ++ [(clock (S w) - clock w)%Q]) (Some (clock w)))
      as [start' Hrun].
    exists start'. rewrite elapsed_S. simpl. simpl in Hrun. rewrite Hrun.
    by rewrite <- app_assoc.
Qed.

(** C3. [begin] sets the list of times to the empty list, [before_run]
    records the current timestamp, and [after_run] appends the timestamp it
    reads minus the recorded one.  So a run of [begin] followed by [n] pairs
    of [before_run] and [after_run] ends, whatever the object held before,
    with a list of exactly [n] times, the k-th being the difference of the
    two clock readings of step k, and none of them negative when the clock
    never goes back. *)
Theorem time_history_records_each_step (clock : nat -> Q) (cpus : option Z)
    (self : TimeHistory.t) (w n : nat) :
  (forall i j : nat, (i <= j)%nat -> (clock i <= clock j)%Q) ->
  returned (run (tf clock cpus) (TimeHistory.begin self) w) =
    Ok {| TimeHistory.times := Some [];
          TimeHistory.iter_time_start := TimeHistory.iter_time_start self |} /\
  returned (run (tf clock cpus) (TimeHistory.before_run self) w) =
    Ok {| TimeHistory.times := TimeHistory.times self;
          TimeHistory.iter_time_start := Some (clock w) |} /\
  (forall recorded start,
     TimeHistory.times self = Some recorded ->
     TimeHistory.iter_time_start self = Some start ->
     returned (run (tf clock cpus) (TimeHistory.after_run self) w) =
       Ok {| TimeHistory.times := Some (recorded ++ [(clock w - start)%Q]);
             TimeHistory.iter_time_start := Some start |}) /\
  exists recorded start,
    returned (run (tf clock cpus) (TimeHistory.session n self) w) =
      Ok {| TimeHistory.times := Some recorded; TimeHistory.iter_time_start := start |} /\
    length recorded = n /\
    Forall (fun t => (0 <= t)%Q) recorded /\
    forall k : nat, (k < n)%nat ->
      recorded !! k = Some (clock (w + 2 * k + 1)%nat - clock (w + 2 * k)%nat)%Q.
Proof.
  intros Hmono. split; [done|]. split; [done|]. split.
  - intros recorded start Ht Hs. unfold TimeHistory.after_run. rewrite Ht, Hs. done.
  - destruct (steps_run clock cpus n w [] (TimeHistory.iter_time_start self))
      as [start Hrun].
    exists (elapsed clock w n), start. split; [exact Hrun|].
    unfold elapsed. split; [by rewrite length_fmap, length_seq|]. split.
    + apply Forall_fmap, Forall_forall. intros k _. simpl.
      apply -> Qle_minus_iff. apply Hmono. lia.
    + intros k Hk. rewrite list_lookup_fmap, lookup_seq_lt by done. done.
Qed.

Lemma time_history_records_each_step_witness :
  (forall i j : nat, (i <= j)%nat ->
     (inject_Z (Z.of_nat i) <= inject_Z (Z.of_nat j))%Q) /\
  exists recorded start,
    returned (run (tf (fun i => inject_Z (Z.of_nat i)) None)
                (TimeHistory.session 3 TimeHistory.new) 0%nat) =
      Ok {| TimeHistory.times := Some recorded; TimeHistory.iter_time_start := start |} /\
    length recorded = 3%nat.
Proof.
  assert (forall i j : nat, (i <= j)%nat ->
            (inject_Z (Z.of_nat i) <= inject_Z (Z.of_nat j))%Q) as H.
  { intros i j Hij. rewrite <- Zle_Qle. lia. }
  split; [exact H|].
  destruct (time_history_records_each_step _ None TimeHistory.new 0 3 H)
    as (_ & _ & _ & recorded & start & Hrun & Hlen & _).
  exists recorded, start. split; [exact Hrun|exact Hlen].
Defined.

(** ** Labels from paths (cell 33) *)

Lemma string_app_cons (c : Ascii.ascii) (s t : string) :
  String c s +:+ t = String c (s +:+ t).
Proof. reflexivity. Qed.

Lemma string_app_snoc (s t : string) (c : Ascii.ascii) :
  (s +:+ String c EmptyString) +:+ t = s +:+ String c t.
Proof.
  induction s as [|a s IH]; [done|]. by rewrite !string_app_cons, IH.
Qed.

Lemma string_app_empty_r (s : string) : s +:+ EmptyString = s.
Proof. induction s as [|a s IH]; [done|]. by rewrite string_app_cons, IH. Qed.

Lemma string_split_from_free (sep : Ascii.ascii) (s token : string) :
  sep ∉ bytes_of s ->
  string_split_from [sep] token s = emit (token +:+ s).
Proof.
  revert token. induction s as [|c s IH]; intros token Hs; simpl.
  - by rewrite string_app_empty_r.
  - simpl in Hs. apply not_elem_of_cons in Hs as [Hc Hs].
    rewrite decide_False by (by intros ->%list_elem_of_singleton).
    rewrite IH by done. by rewrite string_app_snoc.
Qed.

Lemma string_split_component (sep : Ascii.ascii) (s : string) :
  component sep s -> string_split s [sep] = [s].
Proof.
  intros [Hne Hs]. unfold string_split. rewrite string_split_from_free by done.
  simpl. unfold emit. by rewrite decide_False.
Qed.

Lemma string_split_from_sep (sep : Ascii.ascii) (s1 s2 token : string) :
  string_split_from [sep] token (s1 +:+ String sep s2) =
  string_split_from [sep] token s1 ++ string_split s2 [sep].
Proof.
  revert token. induction s1 as [|c s1 IH]; intros token.
  - change (EmptyString +:+ String sep s2) with (String sep s2). simpl.
    by rewrite decide_True by (by apply list_elem_of_singleton).
  - rewrite string_app_cons. simpl. case_decide.
    + rewrite IH. by rewrite app_assoc.
    + apply IH.
Qed.

Lemma string_split_path (sep : Ascii.ascii) (dir parent file : string) :
  component sep parent -> component sep file ->
  string_split (dir +:+ String sep (parent +:+ String sep file)) [sep] =
    string_split dir [sep] ++ [parent; file] /\
  string_split (parent +:+ String sep file) [sep] = [parent; file].
Proof.
  intros Hp Hf.
  assert (string_split (parent +:+ String sep file) [sep] = [parent; file]) as H.
  { unfold string_split at 1. rewrite string_split_from_sep.
    fold (string_split parent [sep]). by rewrite !string_split_component. }
  split; [|exact H].
  unfold string_split at 1. rewrite string_split_from_sep. by rewrite H.
Qed.

Example string_split_train_file :
  string_split "OCT2017/train/CNV/CNV-1.jpeg" ["/"%char] =
    ["OCT2017"; "train"; "CNV"; "CNV-1.jpeg"]%string.
Proof. reflexivity. Qed.

Example string_split_skips_empty :
  string_split "/data//CNV/" ["/"%char] = ["data"; "CNV"]%string.
Proof. reflexivity. Qed.

Example second_to_last_single :
  second_to_last (string_split "CNV-1.jpeg" ["/"%char]) =
    Raise (Exception "InvalidArgumentError").
Proof. reflexivity. Qed.

Lemma second_to_last_app {A} (xs : list A) (x y : A) :
  second_to_last (xs ++ [x; y]) = Ok x.
Proof. unfold second_to_last. by rewrite reverse_app. Qed.

Lemma lookup_index_NoDup (labels : list string) (i : nat) (key : string) :
  NoDup labels -> labels !! i = Some key ->
  lookup_index {| mapping := labels; default_value := -1 |} key = Z.of_nat i.
Proof.
  intros Hnd Hi. unfold lookup_index. simpl.
  assert (list_find (fun k => k = key) labels = Some (i, key)) as ->; [|done].
  apply list_find_Some. repeat split; [done|].
  intros j y Hj Hlt ->. pose proof (NoDup_lookup _ _ _ _ Hnd Hi Hj). lia.
Qed.

Lemma lookup_index_missing (labels : list string) (key : string) :
  key ∉ labels ->
  lookup_index {| mapping := labels; default_value := -1 |} key = -1.
Proof.
  intros Hk. unfold lookup_index. simpl.
  destruct (list_find _ labels) as [[i k]|] eqn:E; [|done].
  apply list_find_Some in E as (Hi & -> & _).
  exfalso. apply Hk. eapply list_elem_of_lookup_2. exact Hi.
Qed.

Lemma one_hot_lookup (i depth j : nat) :
  (j < depth)%nat ->
  one_hot (Z.of_nat i) depth !! j = Some (if decide (j = i) then F32.one else F32.zero).
Proof.
  intros Hj. unfold one_hot. rewrite list_lookup_fmap, lookup_seq_lt by done.
  simpl. f_equal. repeat case_decide; done || lia.
Qed.

Lemma one_hot_out_of_range (index : Z) (depth : nat) :
  index < 0 \/ Z.of_nat depth <= index ->
  one_hot index depth = replicate depth F32.zero.
Proof.
  intros Hi. unfold one_hot.
  apply list_eq. intros j. rewrite list_lookup_fmap.
  destruct (decide (j < depth)%nat) as [Hj|Hj].
  - rewrite lookup_seq_lt, lookup_replicate_2 by done. simpl.
    rewrite decide_False by lia. done.
  - rewrite lookup_seq_ge, (proj1 (lookup_replicate_None _ _ _)) by lia. done.
Qed.

Lemma one_hot_as_insert (i depth : nat) :
  (i < depth)%nat ->
  one_hot (Z.of_nat i) depth = <[i := F32.one]> (replicate depth F32.zero).
Proof.
  intros Hi. apply list_eq. intros j.
  destruct (decide (j < depth)%nat) as [Hj|Hj].
  - rewrite one_hot_lookup by done. symmetry. by apply one_hot_row_lookup.
  - rewrite !lookup_ge_None_2; [done| |].
    + rewrite length_insert, length_replicate. lia.
    + unfold one_hot. rewrite length_fmap, length_seq. lia.
Qed.

Lemma map_func_on_path (h : OCT.host) (labels : list string) (image_size : Z * Z)
    (filename parent file : string) (prefix : list string) (i : nat) :
  NoDup labels -> labels !! i = Some parent ->
  string_split filename [OCT.os_sep h] = prefix ++ [parent; file] ->
  OCT._map_func h {| mapping := labels; default_value := -1 |} (length labels)
      image_size filename =
    (fun image => (image, one_hot (Z.of_nat i) (length labels))) <$>
      OCT.decoded_image h image_size filename.
Proof.
  intros Hnd Hi Hsplit. unfold OCT._map_func, OCT.decoded_image.
  rewrite Hsplit, second_to_last_app. simpl.
  rewrite (lookup_index_NoDup labels i parent) by done.
  destruct (OCT.read_file h filename) as [contents|e]; simpl; [|done].
  destruct (OCT.decode_jpeg h contents 3) as [img|e]; simpl; [|done].
  destruct (OCT.convert_image_dtype h img) as [img'|e]; simpl; [|done].
  by destruct (OCT.resize_images h img' image_size).
Qed.

(** C1. The dataset the OCT input function builds maps every file name
    through [_map_func], and on a path whose last two components are a
    directory named as the category [labels[i]] and a file name, whatever
    comes before them, the label paired with the decoded image is the
    one-hot vector of length [len(labels)] with its single 1 at index [i]:
    the folder alone determines it.  The image half succeeds or fails as
    the file operations do. *)
Theorem label_of_parent_directory (h : OCT.host) (file_pattern : string)
    (labels : list string) (o : OCT.options) (clock : nat -> Q) (cpus : option Z)
    (w : nat) (parent file : string) (i : nat) :
  NoDup labels ->
  labels !! i = Some parent ->
  component (OCT.os_sep h) parent ->
  component (OCT.os_sep h) file ->
  exists input map_func label,
    returned (run (tf clock cpus) (OCT.input_fn h file_pattern labels o) w) =
      Ok (Prefetch (MapAndBatch input map_func (OCT.batch_size o) cpus)
            (OCT.prefetch_buffer_size o)) /\
    length label = length labels /\
    (forall j : nat, (j < length labels)%nat ->
       label !! j = Some (if decide (j = i) then F32.one else F32.zero)) /\
    f32_sum label = F32.one /\
    forall dir filename : string,
      filename = parent +:+ String (OCT.os_sep h) file \/
      filename = dir +:+ String (OCT.os_sep h) (parent +:+ String (OCT.os_sep h) file) ->
      map_func filename =
        (fun image => (image, label)) <$> OCT.decoded_image h (OCT.image_size o) filename.
Proof.
  intros Hnd Hi Hp Hf.
  assert (i < length labels)%nat as Hlt by (by eapply lookup_lt_Some).
  assert (exists input,
    returned (run (tf clock cpus) (OCT.input_fn h file_pattern labels o) w) =
      Ok (Prefetch (MapAndBatch input
            (OCT._map_func h {| mapping := labels; default_value := -1 |}
               (length labels) (OCT.image_size o))
            (OCT.batch_size o) cpus) (OCT.prefetch_buffer_size o))) as [input Hrun].
  { unfold OCT.input_fn. simpl.
    destruct (bool_decide (OCT.num_epochs o <> None)), (OCT.shuffle o);
      eexists; reflexivity. }
  exists input. eexists _, (one_hot (Z.of_nat i) (length labels)).
  split; [exact Hrun|]. split; [|split; [|split]].
  - unfold one_hot. by rewrite length_fmap, length_seq.
  - intros j Hj. by apply one_hot_lookup.
  - rewrite one_hot_as_insert by done. by apply f32_sum_one_hot.
  - intros dir filename Hname.
    destruct (string_split_path (OCT.os_sep h) dir parent file Hp Hf) as [Hdir Hrel].
    destruct Hname as [-> | ->].
    + by apply (map_func_on_path h labels _ _ parent file []).
    + by apply (map_func_on_path h labels _ _ parent file (string_split dir [OCT.os_sep h])).
Qed.

Lemma label_of_parent_directory_witness :
  NoDup OCT.labels /\
  OCT.labels !! 1%nat = Some "DME"%string /\
  component (OCT.os_sep posix_host) "DME" /\
  component (OCT.os_sep posix_host) "DME-1.jpeg" /\
  exists input map_func label,
    returned (run (tf (fun _ => 0%Q) (Some 8))
      (OCT.input_fn posix_host "OCT2017/train/**/*.jpeg" OCT.labels OCT.defaults) 0%nat) =
      Ok (Prefetch (MapAndBatch input map_func 64 (Some 8)) None) /\
    length label = 4%nat /\
    map_func "OCT2017/train/DME/DME-1.jpeg"%string =
      Ok (Ndarray.mk [224; 224; 3]%nat [], label).
Proof.
  assert (NoDup OCT.labels) as Hnd.
  { apply (bool_decide_unpack _). vm_compute. exact I. }
  assert (forall s, s <> EmptyString -> "/"%char ∉ bytes_of s -> component "/"%char s)
    as Hc by (by split).
  assert (component "/"%char "DME") as Hp.
  { apply Hc; [discriminate|]. apply (bool_decide_unpack _). vm_compute. exact I. }
  assert (component "/"%char "DME-1.jpeg") as Hf.
  { apply Hc; [discriminate|]. apply (bool_decide_unpack _). vm_compute. exact I. }
  split; [exact Hnd|]. split; [reflexivity|]. split; [exact Hp|]. split; [exact Hf|].
  destruct (label_of_parent_directory posix_host "OCT2017/train/**/*.jpeg" OCT.labels
              OCT.defaults (fun _ => 0%Q) (Some 8) 0%nat "DME" "DME-1.jpeg" 1
              Hnd eq_refl Hp Hf)
    as (input & map_func & label & Hrun & Hlen & _ & _ & Hmap).
  exists input, map_func, label. split; [exact Hrun|]. split; [exact Hlen|].
  rewrite (Hmap "OCT2017/train"%string); [reflexivity|]. right. reflexivity.
Defined.

(** A folder that is not named as a category gets the all-zero label. *)
Lemma unknown_directory_all_zero (h : OCT.host) (labels : list string)
    (image_size : Z * Z) (filename parent file : string) (prefix : list string) :
  parent ∉ labels ->
  string_split filename [OCT.os_sep h] = prefix ++ [parent; file] ->
  OCT._map_func h {| mapping := labels; default_value := -1 |} (length labels)
      image_size filename =
    (fun image => (image, replicate (length labels) F32.zero)) <$>
      OCT.decoded_image h image_size filename.
Proof.
  intros Hp Hsplit. unfold OCT._map_func, OCT.decoded_image.
  rewrite Hsplit, second_to_last_app. simpl.
  rewrite lookup_index_missing by done.
  rewrite one_hot_out_of_range by lia.
  destruct (OCT.read_file h filename) as [contents|e]; simpl; [|done].
  destruct (OCT.decode_jpeg h contents 3) as [img|e]; simpl; [|done].
  destruct (OCT.convert_image_dtype h img) as [img'|e]; simpl; [|done].
  by destruct (OCT.resize_images h img' image_size).
Qed.

(** ** The input functions (cells 17 and 33) *)

(** C2. Whatever the images, labels, [epochs] and [batch_size], the
    Fashion-MNIST input function returns the dataset obtained from the
    slices of [(images, labels)] by [shuffle] with buffer size 5000, then
    [repeat(epochs)], then [batch(batch_size)], then [prefetch]; and against
    any library at all, when it returns, these five calls are the calls it
    made, in this order, each on the result of the one before, and the
    result of the last is what it returns. *)
Theorem fashion_input_fn_pipeline (images labels : tensor) (epochs : option Z)
    (batch_size : Z) :
  (forall (clock : nat -> Q) (cpus : option Z) (w : nat),
     exists d,
       returned (run (tf clock cpus)
                   (FashionMNIST.input_fn images labels epochs batch_size) w) = Ok d /\
       d = Prefetch (Batch (Repeat (Shuffle (FromTensorSlices images labels) 5000)
                              epochs) batch_size) None /\
       source_of d = FromTensorSlices images labels /\
       transformations d =
         [OpShuffle 5000; OpRepeat epochs; OpBatch batch_size; OpPrefetch None]) /\
  (forall (W : Type) (lib : library W) (w : W) (d : dataset),
     returned (run lib (FashionMNIST.input_fn images labels epochs batch_size) w) = Ok d ->
     exists d0 d1 d2 d3,
       trace (run lib (FashionMNIST.input_fn images labels epochs batch_size) w) =
         [Event (from_tensor_slices images labels) (Ok d0);
          Event (ds_shuffle d0 5000) (Ok d1);
          Event (ds_repeat d1 epochs) (Ok d2);
          Event (ds_batch d2 batch_size) (Ok d3);
          Event (ds_prefetch d3 None) (Ok d)]).
Proof.
  split.
  - intros clock cpus w. eexists. split; [reflexivity|]. done.
  - intros W lib w d. unfold FashionMNIST.input_fn. simpl.
    destruct (lib _ (from_tensor_slices images labels) w) as [[d0|e] w0]; simpl; [|done].
    destruct (lib _ (ds_shuffle d0 5000) w0) as [[d1|e] w1]; simpl; [|done].
    destruct (lib _ (ds_repeat d1 epochs) w1) as [[d2|e] w2]; simpl; [|done].
    destruct (lib _ (ds_batch d2 batch_size) w2) as [[d3|e] w3]; simpl; [|done].
    destruct (lib _ (ds_prefetch d3 None) w3) as [[d4|e] w4]; simpl; [|done].
    intros [= ->]. by exists d0, d1, d2, d3.
Qed.

Lemma taken_when_unique (o : OCT.options) (ft ft' : OCT.file_transformation) :
  OCT.taken_when ft o -> OCT.taken_when ft' o -> ft' = ft.
Proof.
  destruct ft, ft'; simpl; intros [Hs Hn] [Hs' Hn']; try done; congruence.
Qed.

Lemma taken_when_exists (o : OCT.options) : exists ft, OCT.taken_when ft o.
Proof.
  destruct (OCT.shuffle o) eqn:Hs, (OCT.num_epochs o) as [n|] eqn:Hn.
  - exists OCT.FusedShuffleAndRepeat. simpl. by rewrite Hs, Hn.
  - exists OCT.ShuffleAlone. simpl. by rewrite Hs, Hn.
  - exists OCT.RepeatAlone. simpl. by rewrite Hs, Hn.
  - exists OCT.NoTransformation. simpl. by rewrite Hs, Hn.
Qed.

Lemma applies_inj (o : OCT.options) (ft ft' : OCT.file_transformation) :
  OCT.applies ft o = OCT.applies ft' o -> ft' = ft.
Proof. by destruct ft, ft'. Qed.

(** The dataset of the OCT input function under the reference library. *)
Lemma oct_input_fn_run (h : OCT.host) (file_pattern : string) (labels : list string)
    (o : OCT.options) (clock : nat -> Q) (cpus : option Z) (w : nat)
    (ft : OCT.file_transformation) :
  OCT.taken_when ft o ->
  exists d,
    returned (run (tf clock cpus) (OCT.input_fn h file_pattern labels o) w) = Ok d /\
    source_of d = ListFiles file_pattern (OCT.shuffle o) /\
    transformations d =
      OCT.applies ft o ++
      [OpMapAndBatch (OCT.batch_size o) cpus; OpPrefetch (OCT.prefetch_buffer_size o)].
Proof.
  intros Hft. unfold OCT.input_fn. simpl.
  destruct ft; destruct Hft as [Hs Hn]; rewrite Hs;
    try rewrite Hn; try rewrite (bool_decide_eq_true_2 _ Hn);
    simpl; eexists; (split; [reflexivity|]); simpl; rewrite ?Hs; done.
Qed.

(** The training call of cell 42. *)
Example oct_training_pipeline :
  transformations <$> returned (run (tf (fun _ => 0%Q) (Some 8))
    (OCT.input_fn posix_host "OCT2017/train/**/*.jpeg" OCT.labels
       {| OCT.image_size := (224, 224); OCT.shuffle := true; OCT.batch_size := 32;
          OCT.num_epochs := Some 2; OCT.buffer_size := 2048;
          OCT.prefetch_buffer_size := Some 4 |}) 0%nat) =
  Ok [OpShuffleAndRepeat 2048 (Some 2); OpMapAndBatch 32 (Some 8); OpPrefetch (Some 4)].
Proof. reflexivity. Qed.

(** C10. In the OCT input function exactly one of the four cases of the
    branch on [shuffle] and [num_epochs] is taken, and what is applied to
    the list of files before the mapping and batching is what that case
    names and nothing that another case names: the fused shuffle and repeat,
    a shuffle alone, a repeat alone, or nothing.  With the default arguments
    the files are listed unshuffled and are neither shuffled nor repeated. *)
Theorem oct_input_fn_branch (h : OCT.host) (file_pattern : string)
    (labels : list string) (clock : nat -> Q) (cpus : option Z) (w : nat) :
  (forall o : OCT.options,
     exists d ft,
       returned (run (tf clock cpus) (OCT.input_fn h file_pattern labels o) w) = Ok d /\
       source_of d = ListFiles file_pattern (OCT.shuffle o) /\
       OCT.taken_when ft o /\
       (forall ft', OCT.taken_when ft' o -> ft' = ft) /\
       (forall ft',
          transformations d =
            OCT.applies ft' o ++
            [OpMapAndBatch (OCT.batch_size o) cpus;
             OpPrefetch (OCT.prefetch_buffer_size o)] <-> ft' = ft)) /\
  (exists d,
     returned (run (tf clock cpus)
                 (OCT.input_fn h file_pattern labels OCT.defaults) w) = Ok d /\
     source_of d = ListFiles file_pattern false /\
     transformations d = [OpMapAndBatch 64 cpus; OpPrefetch None] /\
     shuffled d = false /\
     repeated d = false).
Proof.
  split.
  - intros o. destruct (taken_when_exists o) as [ft Hft].
    destruct (oct_input_fn_run h file_pattern labels o clock cpus w ft Hft)
      as (d & Hrun & Hsrc & Hops).
    exists d, ft. repeat split; try done.
    + intros ft' Hft'. by apply (taken_when_unique o).
    + rewrite Hops. intros Heq%app_inv_tail. by apply (applies_inj o).
    + by intros ->.
  - eexists. split; [reflexivity|]. done.
Qed.

(** ** Exceptions *)

Lemma run_raises_iff {W A} (lib : library W) (p : Prog A) (w : W) (e : exn) :
  fault_free p ->
  returned (run lib p w) = Raise e <-> Exists (raised e) (trace (run lib p w)).
Proof.
  revert w. induction p as [a|X c k IH|e']; intros w Hff; simpl.
  - split; [done|]. by intros ?%Exists_nil.
  - destruct (lib X c w) as [[x|e'] w']; simpl.
    + rewrite Exists_cons, IH by apply Hff. unfold raised at 2. simpl.
      split; [by right|]. by intros [?|?].
    + rewrite Exists_cons, Exists_nil. unfold raised. simpl.
      split; [intros [= ->]; by left|]. by intros [[= ->]|[]].
  - done.
Qed.

Lemma fashion_input_fn_fault_free images labels epochs batch_size :
  fault_free (FashionMNIST.input_fn images labels epochs batch_size).
Proof. by repeat intro. Qed.

Lemma oct_input_fn_fault_free h file_pattern labels o :
  fault_free (OCT.input_fn h file_pattern labels o).
Proof.
  unfold OCT.input_fn. simpl. intros mapping tbl files.
  destruct (bool_decide (OCT.num_epochs o <> None)), (OCT.shuffle o); by repeat intro.
Qed.

(** C8, as amended. Neither input function, [begin] nor [before_run] can
    raise by itself: each raises an exception exactly when a library call it
    makes raises that exception, which reaches the caller unchanged, and
    [begin] never raises.  The same holds of [after_run] on an object that
    has both [times] and [iter_time_start]; on an object without [times] it
    raises [AttributeError] before making any call, and without
    [iter_time_start] it raises [AttributeError] after [time.time()] has
    returned. *)
Theorem exceptions_propagate {W} (lib : library W) (w : W) (e : exn) :
  (forall images labels epochs batch_size,
     let o := run lib (FashionMNIST.input_fn images labels epochs batch_size) w in
     returned o = Raise e <-> Exists (raised e) (trace o)) /\
  (forall h file_pattern labels options,
     let o := run lib (OCT.input_fn h file_pattern labels options) w in
     returned o = Raise e <-> Exists (raised e) (trace o)) /\
  (forall self,
     let o := run lib (TimeHistory.begin self) w in
     trace o = [] /\ returned o <> Raise e) /\
  (forall self,
     let o := run lib (TimeHistory.before_run self) w in
     returned o = Raise e <-> Exists (raised e) (trace o)) /\
  (forall self,
     let o := run lib (TimeHistory.after_run self) w in
     (is_Some (TimeHistory.times self) ->
      is_Some (TimeHistory.iter_time_start self) ->
      returned o = Raise e <-> Exists (raised e) (trace o)) /\
     (TimeHistory.times self = None ->
      trace o = [] /\ returned o = Raise (AttributeError "times")) /\
     (is_Some (TimeHistory.times self) ->
      TimeHistory.iter_time_start self = None ->
      returned o = Raise e <->
      Exists (raised e) (trace o) \/
      (Forall (fun ev => forall e', ~ raised e' ev) (trace o) /\
       e = AttributeError "iter_time_start"))).
Proof.
  split; [|split; [|split; [|split]]].
  - intros. apply run_raises_iff, fashion_input_fn_fault_free.
  - intros. apply run_raises_iff, oct_input_fn_fault_free.
  - done.
  - intros. apply run_raises_iff. by repeat intro.
  - intros self. unfold TimeHistory.after_run. split; [|split].
    + intros [recorded ->] [start ->]. apply run_raises_iff. by repeat intro.
    + by intros ->.
    + intros [recorded ->] ->. simpl.
      destruct (lib Q time_time w) as [[now|e'] w']; simpl.
      * rewrite Exists_cons, Exists_nil, Forall_cons, Forall_nil. unfold raised. simpl.
        split.
        -- intros [= <-]. right. by repeat split.
        -- intros [[?|?]|[_ ->]]; [discriminate|done|reflexivity].
      * rewrite Exists_cons, Exists_nil, Forall_cons, Forall_nil. unfold raised. simpl.
        split.
        -- intros [= <-]. left. by left.
        -- intros [[[= ->]|?]|[[Hne _] _]]; [reflexivity|done|].
           by destruct (Hne e').
Qed.

(** On a fresh [TimeHistory()], [after_run] raises although no library
    call has raised: none was made. *)
Lemma after_run_raises_by_itself :
  let o := run (tf (fun _ => 0%Q) None) (TimeHistory.after_run TimeHistory.new) 0%nat in
  ~ (returned o = Raise (AttributeError "times") <->
     Exists (raised (AttributeError "times")) (trace o)).
Proof.
  simpl. intros [H _]. specialize (H eq_refl). by apply Exists_nil in H.
Qed.

(** * Further properties *)

(** ** Preparing the images (cell 5) *)

(** Cell 5 goes through exactly on an array of at least one dimension whose
    element count is its first dimension times 28 * 28: a 0-d array has no
    [len], and any other element count makes the reshape fail. *)
Theorem prepare_images_succeeds_iff (images : Ndarray.t Z) :
  is_Some (prepare_images images) <->
  exists SIZE rest,
    Ndarray.shape images = SIZE :: rest /\
    length (Ndarray.data images) = (SIZE * 784)%nat.
Proof.
  unfold prepare_images, Ndarray.len, Ndarray.reshape.
  destruct (Ndarray.shape images) as [|SIZE rest] eqn:Hs; simpl.
  - split; [by intros [? ?]|]. by intros (? & ? & ? & _).
  - rewrite length_fmap. case_decide as Hd; simpl in Hd; split.
    + intros _. exists SIZE, rest. split; [done|lia].
    + eauto.
    + by intros [? ?].
    + intros (S' & rest' & [= <- <-] & Hl). lia.
Qed.

Example prepare_images_flat_input :
  prepare_images (Ndarray.mk [784]%nat (replicate 784 0)) = None.
Proof. vm_compute. reflexivity. Qed.

(** The 256 normalised values are finite and strictly increasing. *)
Lemma pixel_value_table :
  forallb (fun n => match F32.to_Q (normalize (Z.of_nat n)) with
                    | Some _ => true
                    | None => false
                    end) (seq 0 256) &&
  forallb (fun n => match Qcompare (pixel_value (Z.of_nat n))
                            (pixel_value (Z.of_nat (S n))) with
                    | Lt => true
                    | _ => false
                    end) (seq 0 255) = true.
Proof. vm_compute. reflexivity. Qed.

Lemma pixel_value_finite (pixel : Z) :
  0 <= pixel <= 255 -> F32.to_Q (normalize pixel) = Some (pixel_value pixel).
Proof.
  intros Hp. pose proof pixel_value_table as [Ht _]%andb_prop.
  rewrite forallb_forall in Ht. specialize (Ht (Z.to_nat pixel)).
  rewrite Z2Nat.id in Ht by lia. unfold pixel_value.
  destruct (F32.to_Q (normalize pixel)); [done|].
  discriminate Ht. apply in_seq. lia.
Qed.

Lemma pixel_value_succ (n : nat) :
  (n < 255)%nat -> (pixel_value (Z.of_nat n) < pixel_value (Z.of_nat (S n)))%Q.
Proof.
  intros Hn. pose proof pixel_value_table as [_ Ht]%andb_prop.
  rewrite forallb_forall in Ht. specialize (Ht n).
  rewrite Qlt_alt.
  destruct (Qcompare _ _); try done; discriminate Ht; apply in_seq; lia.
Qed.

Lemma pixel_value_lt_nat (n m : nat) :
  (n < m)%nat -> (m <= 255)%nat ->
  (pixel_value (Z.of_nat n) < pixel_value (Z.of_nat m))%Q.
Proof.
  induction m as [|m IH]; intros Hnm Hm; [lia|].
  destruct (decide (n = m)) as [->|Hne].
  - apply pixel_value_succ. lia.
  - eapply Qlt_trans; [apply IH; lia|]. apply pixel_value_succ. lia.
Qed.

(** Normalisation keeps the order of the intensities, strictly: a brighter
    pixel has a larger normalised value, so two different intensities never
    become the same [float32]. *)
Theorem normalize_strictly_increasing (p q : Z) :
  0 <= p -> p < q -> q <= 255 ->
  F32.to_Q (normalize p) = Some (pixel_value p) /\
  F32.to_Q (normalize q) = Some (pixel_value q) /\
  (pixel_value p < pixel_value q)%Q /\
  normalize p <> normalize q.
Proof.
  intros Hp Hpq Hq.
  assert (pixel_value p < pixel_value q)%Q as Hlt.
  { rewrite <- (Z2Nat.id p), <- (Z2Nat.id q) by lia.
    apply pixel_value_lt_nat; lia. }
  repeat split; try (apply pixel_value_finite; lia); [done|].
  intros Heq. unfold pixel_value in Hlt. rewrite Heq in Hlt.
  by apply Qlt_irrefl in Hlt.
Qed.

Lemma normalize_strictly_increasing_witness :
  0 <= 127 /\ 127 < 128 /\ 128 <= 255 /\ normalize 127 <> normalize 128.
Proof.
  assert (0 <= 127) as H1 by lia. assert (127 < 128) as H2 by lia.
  assert (128 <= 255) as H3 by lia.
  repeat split; try assumption.
  exact (proj2 (proj2 (proj2 (normalize_strictly_increasing 127 128 H1 H2 H3)))).
Defined.

(** Each quotient is within [2^-25], half a unit in the last place below 1,
    of the exact [pixel / 255]. *)
Lemma normalize_error_table :
  forallb (fun n =>
             Qle_bool (inject_Z (Z.of_nat n) / 255 - (1 # 33554432))
                      (pixel_value (Z.of_nat n)) &&
             Qle_bool (pixel_value (Z.of_nat n))
                      (inject_Z (Z.of_nat n) / 255 + (1 # 33554432)))%Q
          (seq 0 256) = true.
Proof. vm_compute. reflexivity. Qed.

Theorem normalize_rounding_error (pixel : Z) :
  0 <= pixel <= 255 ->
  F32.to_Q (normalize pixel) = Some (pixel_value pixel) /\
  (inject_Z pixel / 255 - (1 # 33554432) <= pixel_value pixel)%Q /\
  (pixel_value pixel <= inject_Z pixel / 255 + (1 # 33554432))%Q.
Proof.
  intros Hp. split; [by apply pixel_value_finite|].
  pose proof normalize_error_table as Ht.
  rewrite forallb_forall in Ht. specialize (Ht (Z.to_nat pixel)).
  rewrite Z2Nat.id in Ht by lia.
  assert (In (Z.to_nat pixel) (seq 0 256)) as Hin by (apply in_seq; lia).
  apply Ht, andb_prop in Hin as [H1 H2].
  by rewrite <- !Qle_bool_iff.
Qed.

Lemma normalize_rounding_error_witness :
  0 <= 200 <= 255 /\
  (inject_Z 200 / 255 - (1 # 33554432) <= pixel_value 200)%Q.
Proof.
  assert (0 <= 200 <= 255) as H by lia.
  split; [exact H|]. exact (proj1 (proj2 (normalize_rounding_error 200 H))).
Defined.

(** ** Encoding the labels (cell 7) *)

Lemma np_index_10 (l : Z) :
  np_index 10 l = if decide (-10 <= l < 10) then Some (Z.to_nat (l mod 10)) else None.
Proof.
  unfold np_index. simpl Z.of_nat. repeat case_decide; try lia; try done.
  - by rewrite Z.mod_small by lia.
  - f_equal. f_equal. rewrite <- (Z.mod_add l 1 10) by lia.
    rewrite Z.mod_small by lia. lia.
Qed.

Lemma to_categorical_10 (y : list Z) :
  to_categorical y LABEL_DIMENSIONS =
    mapM (fun l => k ← np_index 10 l;
                   Some (<[k := F32.one]> (replicate 10 F32.zero))) y.
Proof. reflexivity. Qed.

(** The encoding goes through exactly when every label is a valid index of
    a row of 10 entries, from -10 to 9: one label out of this range makes the
    whole call fail.  A label below 0 counts from the end of the row, as
    NumPy indices do, so the 1 of a row is at index [l mod 10]. *)
Theorem to_categorical_succeeds_iff (y : list Z) :
  (is_Some (to_categorical y LABEL_DIMENSIONS) <->
     Forall (fun l => -10 <= l < 10) y) /\
  forall rows (i : nat) (l : Z),
    to_categorical y LABEL_DIMENSIONS = Some rows ->
    y !! i = Some l ->
    rows !! i = Some (<[Z.to_nat (l mod 10) := F32.one]> (replicate 10 F32.zero)).
Proof.
  rewrite to_categorical_10. split.
  - rewrite mapM_is_Some. apply Forall_proper; [|done].
    intros l. simpl. rewrite np_index_10. case_decide; simpl.
    + split; [done|]. eauto.
    + split; [by intros [? ?]|done].
  - intros rows i l Hrows Hi. apply mapM_Some in Hrows.
    destruct (Forall2_lookup_l _ _ _ _ _ Hrows Hi) as (row & Hrow & Hf).
    rewrite Hrow. rewrite np_index_10 in Hf. case_decide; simpl in Hf; [|done].
    by injection Hf as <-.
Qed.

Example to_categorical_negative_label :
  to_categorical [-1] LABEL_DIMENSIONS = to_categorical [9] LABEL_DIMENSIONS.
Proof. reflexivity. Qed.

Lemma one_hot_rows_distinct (i j n : nat) :
  (i < n)%nat -> i <> j ->
  <[i := F32.one]> (replicate n F32.zero) <> <[j := F32.one]> (replicate n F32.zero).
Proof.
  intros Hi Hij Heq.
  assert (<[i := F32.one]> (replicate n F32.zero) !! i = Some F32.one) as H1.
  { apply list_lookup_insert_eq. by rewrite length_replicate. }
  rewrite Heq, list_lookup_insert_ne, lookup_replicate_2 in H1 by done.
  discriminate H1.
Qed.

(** Two labels of the classes 0 to 9 are encoded as the same row exactly
    when they are the same label: the class can be read back from the
    row. *)
Theorem to_categorical_injective (y : list Z) (rows : list (list F32.t))
    (i j : nat) (l l' : Z) (r r' : list F32.t) :
  Forall (fun l => 0 <= l < 10) y ->
  to_categorical y LABEL_DIMENSIONS = Some rows ->
  y !! i = Some l -> y !! j = Some l' ->
  rows !! i = Some r -> rows !! j = Some r' ->
  r = r' <-> l = l'.
Proof.
  intros Hy Hrows Hi Hj Hr Hr'.
  pose proof (Forall_lookup_1 _ _ _ _ Hy Hi) as Hl. simpl in Hl.
  pose proof (Forall_lookup_1 _ _ _ _ Hy Hj) as Hl'. simpl in Hl'.
  rewrite to_categorical_10 in Hrows. apply mapM_Some in Hrows.
  destruct (Forall2_lookup_l _ _ _ _ _ Hrows Hi) as (row & Hrow & Hf).
  destruct (Forall2_lookup_l _ _ _ _ _ Hrows Hj) as (row' & Hrow' & Hf').
  rewrite Hr in Hrow. rewrite Hr' in Hrow'.
  injection Hrow as <-. injection Hrow' as <-.
  rewrite np_index_in_range in Hf, Hf' by (simpl; lia). simpl in Hf, Hf'.
  injection Hf as <-. injection Hf' as <-.
  split.
  - intros Heq. destruct (decide (l = l')) as [|Hne]; [done|].
    exfalso. revert Heq.
    apply (one_hot_rows_distinct (Z.to_nat l) (Z.to_nat l') 10); lia.
  - by intros ->.
Qed.

Lemma to_categorical_injective_witness :
  Forall (fun l => 0 <= l < 10) [3; 7; 3] /\
  exists rows r r',
    to_categorical [3; 7; 3] LABEL_DIMENSIONS = Some rows /\
    rows !! 0%nat = Some r /\ rows !! 1%nat = Some r' /\ r <> r'.
Proof.
  assert (Forall (fun l => 0 <= l < 10) [3; 7; 3]) as H.
  { repeat constructor; lia. }
  split; [exact H|].
  eexists _, _, _. split; [reflexivity|]. split; [reflexivity|]. split; [reflexivity|].
  intros Heq.
  pose proof (proj1 (to_categorical_injective [3; 7; 3] _ 0 1 3 7 _ _ H
                       eq_refl eq_refl eq_refl eq_refl eq_refl) Heq).
  discriminate.
Defined.

(** ** The step timer and the throughput figures (cells 19, 23 and 24) *)

Lemma elapsed_app (clock : nat -> Q) (w n m : nat) :
  elapsed clock w (n + m) = elapsed clock w n ++ elapsed clock (w + 2 * n) m.
Proof.
  revert w. induction n as [|n IH]; intros w.
  - simpl. f_equal. lia.
  - change (S n + m)%nat with (S (n + m)). rewrite !elapsed_S, IH. simpl.
    do 3 f_equal. lia.
Qed.

(** Later steps never rewrite the times recorded by earlier ones: the list
    after [n + m] steps is the list after [n] steps followed by the times of
    the [m] further steps. *)
Theorem session_history_extends (clock : nat -> Q) (cpus : option Z)
    (self : TimeHistory.t) (w n m : nat) :
  exists recorded further start start',
    returned (run (tf clock cpus) (TimeHistory.session n self) w) =
      Ok {| TimeHistory.times := Some recorded;
            TimeHistory.iter_time_start := start |} /\
    returned (run (tf clock cpus) (TimeHistory.session (n + m) self) w) =
      Ok {| TimeHistory.times := Some (recorded ++ further);
            TimeHistory.iter_time_start := start' |} /\
    length recorded = n /\ length further = m.
Proof.
  destruct (steps_run clock cpus n w [] (TimeHistory.iter_time_start self))
    as [start Hn].
  destruct (steps_run clock cpus (n + m) w [] (TimeHistory.iter_time_start self))
    as [start' Hnm].
  exists (elapsed clock w n), (elapsed clock (w + 2 * n) m), start, start'.
  split; [exact Hn|]. split.
  - rewrite <- elapsed_app. exact Hnm.
  - unfold elapsed. by rewrite !length_fmap, !length_seq.
Qed.













(** ** Paths and labels (cells 30 and 33) *)

Lemma oct_input_fn_maps (h : OCT.host) (file_pattern : string) (labels : list string)
    (o : OCT.options) (clock : nat -> Q) (cpus : option Z) (w : nat) :
  exists input,
    returned (run (tf clock cpus) (OCT.input_fn h file_pattern labels o) w) =
      Ok (Prefetch (MapAndBatch input (oct_map_func h labels o) (OCT.batch_size o) cpus)
            (OCT.prefetch_buffer_size o)).
Proof.
  unfold OCT.input_fn. simpl.
  destruct (bool_decide (OCT.num_epochs o <> None)), (OCT.shuffle o);
    eexists; reflexivity.
Qed.

Lemma bytes_of_snoc (s : string) (c : Ascii.ascii) :
  bytes_of (s +:+ String c EmptyString) = bytes_of s ++ [c].
Proof.
  induction s as [|a s IH]; [done|]. rewrite string_app_cons. simpl. by rewrite IH.
Qed.

Lemma string_split_from_components (sep : Ascii.ascii) (s token : string) :
  sep ∉ bytes_of token ->
  Forall (component sep) (string_split_from [sep] token s).
Proof.
  revert token. induction s as [|c s IH]; intros token Htok; simpl.
  - unfold emit. case_decide; [constructor|]. by repeat constructor.
  - case_decide as Hc.
    + apply Forall_app. split.
      * unfold emit. case_decide; [constructor|]. by repeat constructor.
      * apply IH. simpl. apply not_elem_of_nil.
    + apply IH. rewrite bytes_of_snoc. rewrite not_elem_of_app. split; [done|].
      intros ->%list_elem_of_singleton. apply Hc. by apply list_elem_of_singleton.
Qed.

(** Every token [string_split] gives is a path component: it is not empty
    and has no separator in it, whatever the path. *)
Theorem string_split_components (sep : Ascii.ascii) (source : string) :
  Forall (component sep) (string_split source [sep]).
Proof. apply string_split_from_components. simpl. apply not_elem_of_nil. Qed.

Lemma component_startswith (s : string) :
  component posix_sep s -> startswith_sep s = false.
Proof.
  intros [Hne Hs]. destruct s as [|c s]; [done|]. simpl in *.
  apply bool_decide_eq_false. intros ->. apply Hs. by left.
Qed.

Lemma endswith_sep_free (s : string) :
  posix_sep ∉ bytes_of s -> endswith_sep s = false.
Proof.
  induction s as [|c s IH]; [done|]. simpl. intros [Hc Hs]%not_elem_of_cons.
  destruct s; [|by apply IH]. by apply bool_decide_eq_false.
Qed.

Lemma string_app_not_empty (a b : string) : b <> EmptyString -> a +:+ b <> EmptyString.
Proof. intros Hb. by destruct a. Qed.

Lemma endswith_sep_app (a b : string) :
  b <> EmptyString -> endswith_sep (a +:+ b) = endswith_sep b.
Proof.
  intros Hb. induction a as [|c a IH]; [done|].
  rewrite string_app_cons. simpl.
  destruct (a +:+ b) eqn:E; [|done].
  by apply string_app_not_empty in E.
Qed.

Lemma join_part_component (path b : string) :
  path <> EmptyString -> endswith_sep path = false -> component posix_sep b ->
  join_part path b = path +:+ String posix_sep b.
Proof.
  intros Hne Hend Hb. unfold join_part.
  rewrite component_startswith, Hend, bool_decide_eq_false_2 by done. done.
Qed.

Lemma string_split_join (comps : list string) : forall path : string,
  path <> EmptyString -> endswith_sep path = false ->
  Forall (component posix_sep) comps ->
  string_split (foldl join_part path comps) [posix_sep] =
    string_split path [posix_sep] ++ comps.
Proof.
  induction comps as [|b comps IH]; intros path Hne Hend Hc; simpl.
  - by rewrite app_nil_r.
  - apply Forall_cons in Hc as [Hb Hc].
    rewrite join_part_component by done. rewrite IH; [| | |done].
    + unfold string_split at 1. rewrite string_split_from_sep.
      fold (string_split path [posix_sep]).
      rewrite (string_split_component posix_sep b) by done.
      by rewrite <- app_assoc.
    + by apply string_app_not_empty.
    + rewrite endswith_sep_app by done. simpl.
      destruct Hb as [Hbne Hb]. destruct b as [|c b]; [done|].
      apply (endswith_sep_free (String c b)). exact Hb.
Qed.

(** Splitting undoes joining: the path [os.path.join] makes of path
    components is split by [string_split] into these components again. *)
Theorem split_join_round_trip (a : string) (p : list string) :
  Forall (component posix_sep) (a :: p) ->
  string_split (os_path_join a p) [posix_sep] = a :: p.
Proof.
  intros [Ha Hp]%Forall_cons. unfold os_path_join.
  rewrite string_split_join; [| | |done].
  - by rewrite (string_split_component posix_sep a).
  - by destruct Ha.
  - apply endswith_sep_free. by destruct Ha.
Qed.

Example train_folder_value : train_folder = "OCT2017/train/**/*.jpeg"%string.
Proof. reflexivity. Qed.

Example os_path_join_absolute_part :
  os_path_join "OCT2017" ["/data"; "train"]%string = "/data/train"%string.
Proof. reflexivity. Qed.

Lemma posix_component (s : string) :
  s <> EmptyString -> bool_decide (posix_sep ∉ bytes_of s) = true ->
  component posix_sep s.
Proof. intros Hne Hs%bool_decide_eq_true. by split. Qed.

Lemma split_join_round_trip_witness :
  Forall (component posix_sep) ["OCT2017"; "train"; "DME"; "DME-1.jpeg"]%string /\
  string_split "OCT2017/train/DME/DME-1.jpeg" [posix_sep] =
    ["OCT2017"; "train"; "DME"; "DME-1.jpeg"]%string.
Proof.
  assert (Forall (component posix_sep) ["OCT2017"; "train"; "DME"; "DME-1.jpeg"]%string)
    as H.
  { repeat constructor; apply posix_component; (discriminate || reflexivity). }
  split; [exact H|].
  exact (split_join_round_trip "OCT2017" ["train"; "DME"; "DME-1.jpeg"]%string H).
Defined.

(** On a POSIX host, a file placed with [os.path.join] in the folder of the
    category [labels[i]], below any folders, is labelled with the one-hot
    vector of [i] by the function the OCT dataset maps over the file
    names. *)
Theorem label_of_joined_path (h : OCT.host) (labels : list string) (o : OCT.options)
    (a : string) (p above : list string) (category file : string) (i : nat) :
  OCT.os_sep h = posix_sep ->
  NoDup labels ->
  labels !! i = Some category ->
  a :: p = above ++ [category; file] ->
  Forall (component posix_sep) (a :: p) ->
  oct_map_func h labels o (os_path_join a p) =
    (fun image => (image, one_hot (Z.of_nat i) (length labels))) <$>
      OCT.decoded_image h (OCT.image_size o) (os_path_join a p).
Proof.
  intros Hsep Hnd Hi Hparts Hc. unfold oct_map_func, label_table.
  apply (map_func_on_path h labels _ _ category file above); [done|done|].
  rewrite Hsep, split_join_round_trip by done. exact Hparts.
Qed.

Lemma label_of_joined_path_witness :
  OCT.os_sep posix_host = posix_sep /\
  NoDup OCT.labels /\
  OCT.labels !! 2%nat = Some "DRUSEN"%string /\
  Forall (component posix_sep) ["OCT2017"; "test"; "DRUSEN"; "DRUSEN-7.jpeg"]%string /\
  snd <$> oct_map_func posix_host OCT.labels OCT.defaults
            (os_path_join "OCT2017" ["test"; "DRUSEN"; "DRUSEN-7.jpeg"]%string) =
    Ok [F32.zero; F32.zero; F32.one; F32.zero].
Proof.
  assert (NoDup OCT.labels) as Hnd.
  { apply (bool_decide_unpack _). vm_compute. exact I. }
  assert (Forall (component posix_sep)
            ["OCT2017"; "test"; "DRUSEN"; "DRUSEN-7.jpeg"]%string) as Hc.
  { repeat constructor; apply posix_component; (discriminate || reflexivity). }
  split; [reflexivity|]. split; [exact Hnd|]. split; [reflexivity|]. split; [exact Hc|].
  rewrite (label_of_joined_path posix_host OCT.labels OCT.defaults "OCT2017"
             ["test"; "DRUSEN"; "DRUSEN-7.jpeg"]%string ["OCT2017"; "test"]%string
             "DRUSEN" "DRUSEN-7.jpeg" 2 eq_refl Hnd eq_refl eq_refl Hc).
  reflexivity.
Defined.

(** A file in a folder that is not named as one of the labels is not
    rejected: it gets the all-zero vector as its label. *)
Lemma unknown_directory_all_zero_witness :
("OTHER"%string ∉ OCT.labels) /\
  string_split "OCT2017/train/OTHER/x.jpeg" [OCT.os_sep posix_host] =
    ["OCT2017"; "train"]%string ++ ["OTHER"; "x.jpeg"]%string /\
  snd <$> OCT._map_func posix_host {| mapping := OCT.labels; default_value := -1 |}
            (length OCT.labels) (224, 224) "OCT2017/train/OTHER/x.jpeg" =
    Ok [F32.zero; F32.zero; F32.zero; F32.zero].
Proof.
  assert ("OTHER"%string ∉ OCT.labels) as Hn.
  { apply (bool_decide_unpack _). vm_compute. exact I. }
  split; [exact Hn|]. split; [reflexivity|].
  rewrite (unknown_directory_all_zero posix_host OCT.labels (224, 224)
             "OCT2017/train/OTHER/x.jpeg" "OTHER" "x.jpeg" ["OCT2017"; "train"]%string
             Hn eq_refl).
  reflexivity.
Defined.

(** A path of fewer than two components, a bare file name or a file at the
    root, has no second-to-last component: the mapped function raises and
    gives no label, whatever the file holds. *)
Theorem short_path_raises (h : OCT.host) (labels : list string) (o : OCT.options)
    (filename : string) :
  (length (string_split filename [OCT.os_sep h]) < 2)%nat ->
  exists e, oct_map_func h labels o filename = Raise e.
Proof.
  intros Hlen. unfold oct_map_func, OCT._map_func, second_to_last.
  rewrite <- length_reverse in Hlen.
  destruct (reverse (string_split filename [OCT.os_sep h])) as [|x [|y rest]];
    simpl in Hlen; [by eexists..|lia].
Qed.

Lemma short_path_raises_witness :
  (length (string_split "/DME-1.jpeg" [OCT.os_sep posix_host]) < 2)%nat /\
  exists e, oct_map_func posix_host OCT.labels OCT.defaults "/DME-1.jpeg" = Raise e.
Proof.
  assert (length (string_split "/DME-1.jpeg" [OCT.os_sep posix_host]) < 2)%nat as H.
  { vm_compute. lia. }
  split; [exact H|].
  exact (short_path_raises posix_host OCT.labels OCT.defaults "/DME-1.jpeg" H).
Defined.

Lemma one_hot_distinct (i j depth : nat) :
  (i < depth)%nat -> i <> j ->
  one_hot (Z.of_nat i) depth <> one_hot (Z.of_nat j) depth.
Proof.
  intros Hi Hij Heq.
  pose proof (one_hot_lookup i depth i Hi) as H1.
  rewrite Heq, one_hot_lookup in H1 by done.
  rewrite (decide_False (P := i = j)), (decide_True (P := i = i)) in H1 by done.
  discriminate H1.
Qed.

(** Files of two category folders get the same label exactly when the two
    folders have the same name: the category can be read back from the
    label. *)
Theorem labels_identify_categories (h : OCT.host) (labels : list string)
    (o : OCT.options) (filename filename' parent parent' file file' : string)
    (above above' : list string) (img img' : image) (label label' : list F32.t) :
  NoDup labels ->
  parent ∈ labels -> parent' ∈ labels ->
  string_split filename [OCT.os_sep h] = above ++ [parent; file] ->
  string_split filename' [OCT.os_sep h] = above' ++ [parent'; file'] ->
  oct_map_func h labels o filename = Ok (img, label) ->
  oct_map_func h labels o filename' = Ok (img', label') ->
  label = label' <-> parent = parent'.
Proof.
  intros Hnd [i Hi]%list_elem_of_lookup_1 [j Hj]%list_elem_of_lookup_1
    Hsplit Hsplit' Hmap Hmap'.
  unfold oct_map_func, label_table in *.
  rewrite (map_func_on_path h labels _ _ parent file above i) in Hmap by done.
  rewrite (map_func_on_path h labels _ _ parent' file' above' j) in Hmap' by done.
  destruct (OCT.decoded_image h _ filename); [|done].
  destruct (OCT.decoded_image h _ filename'); [|done].
  simpl in Hmap, Hmap'. injection Hmap as _ <-. injection Hmap' as _ <-.
  split.
  - intros Heq. destruct (decide (i = j)) as [->|Hne]; [congruence|].
    exfalso. revert Heq. apply one_hot_distinct; [|done]. by eapply lookup_lt_Some.
  - intros <-. f_equal. f_equal. by eapply NoDup_lookup.
Qed.

Lemma labels_identify_categories_witness :
  NoDup OCT.labels /\
  "CNV"%string ∈ OCT.labels /\ "NORMAL"%string ∈ OCT.labels /\
  exists image image' label label',
    oct_map_func posix_host OCT.labels OCT.defaults "train/CNV/a.jpeg" =
      Ok (image, label) /\
    oct_map_func posix_host OCT.labels OCT.defaults "train/NORMAL/b.jpeg" =
      Ok (image', label') /\
    label <> label'.
Proof.
  assert (NoDup OCT.labels) as Hnd.
  { apply (bool_decide_unpack _). vm_compute. exact I. }
  assert ("CNV"%string ∈ OCT.labels) as H1 by (apply (bool_decide_unpack _); vm_compute; exact I).
  assert ("NORMAL"%string ∈ OCT.labels) as H2 by (apply (bool_decide_unpack _); vm_compute; exact I).
  split; [exact Hnd|]. split; [exact H1|]. split; [exact H2|].
  eexists _, _, _, _. split; [reflexivity|]. split; [reflexivity|].
  intros Heq.
  pose proof (proj1 (labels_identify_categories posix_host OCT.labels OCT.defaults
    "train/CNV/a.jpeg" "train/NORMAL/b.jpeg" "CNV" "NORMAL" "a.jpeg" "b.jpeg"
    ["train"]%string ["train"]%string _ _ _ _ Hnd H1 H2 eq_refl eq_refl eq_refl eq_refl) Heq).
  discriminate.
Defined.

(** ** The datasets of the input functions (cells 17 and 33) *)


Lemma card_repeat_finite (n : N) (e : Z) :
  0 <= e -> card_repeat (Some e) (Finite n) = Finite (n * Z.to_N e).
Proof.
  intros He. unfold card_repeat. destruct n as [|n]; [done|].
  destruct e as [|e|e]; [done|by rewrite decide_False by lia|lia].
Qed.

(** The Fashion-MNIST dataset repeats before it batches, so the batches run
    across the passes: from [n] examples it yields the [n * epochs] examples
    in batches of [batch_size], that is [n * epochs / batch_size] batches
    rounded up, and batches without end when [epochs] is missing or
    negative. *)
Theorem fashion_batch_count (images labels : tensor) (epochs : option Z)
    (batch_size : Z) (n : N) (clock : nat -> Q) (cpus : option Z) (w : nat) :
  0 < batch_size ->
  exists d,
    returned (run (tf clock cpus)
                (FashionMNIST.input_fn images labels epochs batch_size) w) = Ok d /\
    (forall e, epochs = Some e -> 0 <= e ->
       card_after (transformations d) (Finite n) =
         Some (Finite (ceil_div (n * Z.to_N e) (Z.to_N batch_size)))) /\
    ((epochs = None \/ exists e, epochs = Some e /\ e < 0) -> (0 < n)%N ->
       card_after (transformations d) (Finite n) = Some Infinite).
Proof.
  intros Hb. eexists. split; [reflexivity|]. simpl.
  unfold card_batch. rewrite decide_True by done. split.
  - intros e -> He. by rewrite card_repeat_finite.
  - intros Hinf Hn. destruct n as [|n]; [lia|].
    destruct Hinf as [-> | (e & -> & He)]; [done|].
    unfold card_repeat. destruct e; try lia. by rewrite decide_True by lia.
Qed.

(** The training call of cell 21: 60000 images, 5 epochs, batches of 512.
    Two towers take a batch each per step, which gives the 293 steps of the
    log. *)
Example fashion_training_batches :
  card_after [OpShuffle 5000; OpRepeat (Some 5); OpBatch 512; OpPrefetch None]
    (Finite 60000) = Some (Finite 586).
Proof. vm_compute. reflexivity. Qed.

Lemma fashion_batch_count_witness :
  0 < 512 /\
  exists d,
    returned (run (tf (fun _ => 0%Q) None)
      (FashionMNIST.input_fn (Ndarray.mk [] []) (Ndarray.mk [] []) (Some 5) 512) 0%nat) =
      Ok d /\
    card_after (transformations d) (Finite 60000) = Some (Finite 586).
Proof.
  assert (0 < 512) as H by lia. split; [exact H|].
  destruct (fashion_batch_count (Ndarray.mk [] []) (Ndarray.mk [] []) (Some 5) 512
              60000 (fun _ => 0%Q) None 0 H) as (d & Hrun & Hfin & _).
  exists d. split; [exact Hrun|]. rewrite (Hfin 5 eq_refl); [|lia].
  vm_compute. reflexivity.
Defined.


(** The training call of cell 42 on the 83484 training files: two epochs in
    batches of 32, a batch per tower and step, the 2609 steps of the log. *)
Example oct_training_batches :
  card_after [OpShuffleAndRepeat 2048 (Some 2); OpMapAndBatch 32 (Some 8);
              OpPrefetch (Some 4)] (Finite 83484) = Some (Finite 5218).
Proof. vm_compute. reflexivity. Qed.


(** ** Exceptions end a function *)



(** ** Freezing again, and short backbones (cell 37) *)

Lemma freeze_lookup (heap : gmap positive layer) (layers : list positive) (l : positive) :
  freeze heap layers !! l =
    if decide (l ∈ take (length layers - 4) layers)
    then set_trainable false <$> heap !! l
    else heap !! l.
Proof.
  unfold freeze. rewrite slice_until_minus_4. case_decide.
  - by apply foldl_alter_in.
  - by apply foldl_alter_notin.
Qed.

(** Running the loop a second time changes nothing. *)
Theorem freeze_idempotent (heap : gmap positive layer) (layers : list positive) :
  freeze (freeze heap layers) layers = freeze heap layers.
Proof.
  apply map_eq. intros l. rewrite !freeze_lookup. case_decide; [|done].
  by destruct (heap !! l).
Qed.

(** A backbone of four layers or fewer is left as it is: nothing is
    frozen. *)
Theorem freeze_short_backbone (heap : gmap positive layer) (layers : list positive) :
  (length layers <= 4)%nat -> freeze heap layers = heap.
Proof.
  intros Hlen. apply map_eq. intros l. rewrite freeze_lookup.
  replace (length layers - 4)%nat with 0%nat by lia.
  rewrite decide_False; [done|]. simpl. apply not_elem_of_nil.
Qed.

Lemma freeze_short_backbone_witness :
  (length [1; 2; 3]%positive <= 4)%nat /\
  freeze model_heap [1; 2; 3]%positive = model_heap.
Proof.
  assert (length [1; 2; 3]%positive <= 4)%nat as H by (simpl; lia).
  split; [exact H|]. exact (freeze_short_backbone model_heap [1; 2; 3]%positive H).
Defined.

Lemma filter_all {A} (P : A -> Prop) `{forall x, Decision (P x)} (xs : list A) :
  Forall P xs -> filter P xs = xs.
Proof.
  induction 1 as [|x xs Hx _ IH]; [done|]. by rewrite filter_cons_True, IH.
Qed.

Lemma filter_none {A} (P : A -> Prop) `{forall x, Decision (P x)} (xs : list A) :
  Forall (fun x => ~ P x) xs -> filter P xs = [].
Proof.
  induction 1 as [|x xs Hx _ IH]; [done|]. by rewrite filter_cons_False.
Qed.

(** Of a backbone of distinct layers that were all trainable, the layers
    still trainable after the loop are the last four, or all of them when
    there are fewer than four, in the order of the list. *)
Theorem trainable_after_freeze (heap : gmap positive layer) (layers : list positive) :
  NoDup layers ->
  (forall l, l ∈ layers -> trainable <$> heap !! l = Some true) ->
  trainable_layers (freeze heap layers) layers = drop (length layers - 4) layers /\
  length (trainable_layers (freeze heap layers) layers) = Nat.min 4 (length layers).
Proof.
  intros Hnd Hall.
  assert (trainable_layers (freeze heap layers) layers = drop (length layers - 4) layers)
    as Heq.
  { unfold trainable_layers.
    pose proof (freeze_lookup heap layers) as Hlook.
    set (heap' := freeze heap layers) in *.
    set (k := (length layers - 4)%nat) in *.
    rewrite <- (take_drop k layers) at 1.
    rewrite filter_app.
    pose proof Hnd as Hnd'.
    rewrite <- (take_drop k layers) in Hnd'.
    apply NoDup_app in Hnd' as (_ & Hdisj & _).
    rewrite filter_none, filter_all; [done| |].
    - apply Forall_forall. intros l Hl. rewrite Hlook.
      rewrite decide_False by (intros Hin; by apply (Hdisj l)).
      apply Hall. rewrite <- (take_drop k layers).
      apply elem_of_app. by right.
    - apply Forall_forall. intros l Hl. rewrite Hlook.
      rewrite decide_True by done.
      destruct (heap !! l); simpl; [discriminate|done]. }
  split; [exact Heq|]. rewrite Heq, length_drop. lia.
Qed.

Lemma trainable_after_freeze_witness :
  NoDup keras_vgg16_layers /\
  (forall l, l ∈ keras_vgg16_layers -> trainable <$> model_heap !! l = Some true) /\
  trainable_layers (freeze model_heap keras_vgg16_layers) keras_vgg16_layers =
    [16; 17; 18; 19]%positive.
Proof.
  assert (NoDup keras_vgg16_layers) as Hnd.
  { apply (bool_decide_unpack _). vm_compute. exact I. }
  assert (forall l, l ∈ keras_vgg16_layers -> trainable <$> model_heap !! l = Some true)
    as Hall.
  { apply Forall_forall. apply (bool_decide_unpack _). vm_compute. exact I. }
  split; [exact Hnd|]. split; [exact Hall|].
  rewrite (proj1 (trainable_after_freeze model_heap keras_vgg16_layers Hnd Hall)).
  reflexivity.
Defined.
